(** * Finance tracker backend: authentication gate, user model hook and
      transaction routes

    A shallow embedding of
    - [middleware/auth.js]   (module [Auth]),
    - [models/User.js]       (module [UserModel]),
    - [routes/transactions.js] (module [Transactions]),
    with the token verifier the gate calls (module [TokenService]), the
    vocabulary of the specification (module [Spec]) and sample data (module
    [Sample]), followed by the properties established about them.

    Conventions.  A JavaScript value that may be [undefined] is an [option];
    integers are [Z]; instants ([Date]) are [Z] milliseconds; monetary amounts
    are rationals.  Calls that leave the process (token verification, store
    queries, the continuation [next]) are recorded in a trace, so that "no
    lookup happened" is a statement about the trace. *)

From Stdlib Require Import ZArith List String Ascii Bool Lia Permutation QArith Btauto.
From Stdlib Require Import Sorted.
Import ListNotations.
Open Scope string_scope.
Open Scope Z_scope.

(* ===================================================================== *)
(** ** JavaScript primitives used by the sources *)
(* ===================================================================== *)

Module JS.

(** Truthiness of a possibly-undefined string: [undefined] and the empty
    string are falsy. *)
Definition truthy (v : option string) : bool :=
  match v with
  | Some s => negb (s =? "")%string
  | None => false
  end.

(** [a || b] on possibly-undefined strings. *)
Definition or_else (v : option string) (d : string) : string :=
  match v with
  | Some s => if (s =? "")%string then d else s
  | None => d
  end.

(** [parseInt(x) || d]: [None] stands for [NaN]; [NaN] and [0] are falsy. *)
Definition int_or (v : option Z) (d : Z) : Z :=
  match v with
  | Some n => if n =? 0 then d else n
  | None => d
  end.

(** [String.prototype.startsWith]. *)
Definition startsWith (p s : string) : bool := String.prefix p s.

(** [String.prototype.split] with a one-character separator. *)
Fixpoint split (sep : ascii) (s : string) : list string :=
  match s with
  | EmptyString => [EmptyString]
  | String c s' =>
      if Ascii.eqb c sep then EmptyString :: split sep s'
      else match split sep s' with
           | h :: t => String c h :: t
           | [] => [String c EmptyString]
           end
  end.

(** Array indexing [a[i]]: [undefined] out of range. *)
Definition index {A} (a : list A) (i : nat) : option A := nth_error a i.

(** Does the character occur in the string? *)
Fixpoint has_char (c : ascii) (s : string) : bool :=
  match s with
  | EmptyString => false
  | String c' s' => Ascii.eqb c' c || has_char c s'
  end.

(** ASCII lower-casing, for case-insensitive matching. *)
Definition lower_ascii (c : ascii) : ascii :=
  let n := nat_of_ascii c in
  if (Nat.leb 65 n && Nat.leb n 90)%bool then ascii_of_nat (n + 32) else c.

Fixpoint lower (s : string) : string :=
  match s with
  | EmptyString => EmptyString
  | String c s' => String (lower_ascii c) (lower s')
  end.

(** Literal substring test. *)
Fixpoint contains (needle hay : string) : bool :=
  String.prefix needle hay ||
  match hay with
  | EmptyString => false
  | String _ hay' => contains needle hay'
  end.

(** Case-insensitive literal substring test: what a [$regex] with option
    ['i'] computes on a pattern free of metacharacters. *)
Definition ci_contains (needle hay : string) : bool :=
  contains (lower needle) (lower hay).

End JS.

(* ===================================================================== *)
(** ** middleware/auth.js *)
(* ===================================================================== *)

Module Auth.

(** The part of a request the middleware reads. *)
Record Request := mkRequest {
  cookies_token : option string;
  headers_authorization : option string
}.

(** A user document. [password] is [None] once deselected. *)
Record User := mkUser {
  _id : string;
  name : string;
  email : string;
  password : option string;
  avatar : string;
  role : string;
  createdAt : Z
}.

(** Payload of a verified token, as signed by [getSignedJwtToken]. *)
Record Decoded := mkDecoded {
  id : string;
  decoded_email : string
}.

(** Result of a store query: it may throw, find nothing, or find a
    document. *)
Inductive Lookup :=
| Threw
| Null
| Doc (u : User).

(** Calls that leave the middleware. *)
Inductive Event :=
| EvVerify (token : string)
| EvFindById (uid : string)
| EvNext.

(** What the middleware does with the request: answer it, or hand it on
    with [req.user] set. *)
Inductive Outcome :=
| Rejected (status : Z) (message : string)
| Continue (user : User).

(** Computations that log their external calls. *)
Definition Traced (A : Type) : Type := (A * list Event)%type.

Definition ret {A} (a : A) : Traced A := (a, []).

Definition bind {A B} (m : Traced A) (f : A -> Traced B) : Traced B :=
  let (a, t) := m in
  let (b, t') := f a in
  (b, (t ++ t')%list).

Notation "x <- m ;; k" := (bind m (fun x => k))
  (at level 61, m at next level, right associativity).

Definition msg_login := "Vui lòng đăng nhập để truy cập".
Definition msg_no_user := "Người dùng không tồn tại".
Definition msg_invalid := "Token không hợp lệ hoặc đã hết hạn".

(** [.select('-password')]. *)
Definition select_minus_password (u : User) : User :=
  mkUser (_id u) (name u) (email u) None (avatar u) (role u) (createdAt u).

(** Lines 7-17: the candidate token. *)
Definition extract_token (req : Request) : option string :=
  if JS.truthy (cookies_token req) then cookies_token req
  else
    match headers_authorization req with
    | Some h =>
        if (negb (h =? "")%string && JS.startsWith "Bearer" h)%bool
        then JS.index (JS.split " "%char h) 1
        else None
    | None => None
    end.

Section Protect.

(** [jwt.verify(token, secret)]: [None] when it throws. *)
Variable jwt_verify : string -> string -> option Decoded.
Variable JWT_SECRET : string.
(** [User.findById]. *)
Variable User_findById : string -> Lookup.

Definition call_verify (tok : string) : Traced (option Decoded) :=
  (jwt_verify tok JWT_SECRET, [EvVerify tok]).

Definition call_findById (uid : string) : Traced Lookup :=
  (User_findById uid, [EvFindById uid]).

Definition call_next (u : User) : Traced Outcome :=
  (Continue u, [EvNext]).

(** [exports.protect]. The [catch] covers both the verification and the
    lookup. *)
Definition protect (req : Request) : Traced Outcome :=
  let token := extract_token req in
  if negb (JS.truthy token) then ret (Rejected 401 msg_login)
  else
    match token with
    | None => ret (Rejected 401 msg_login)
    | Some tok =>
        d <- call_verify tok ;;
        match d with
        | None => ret (Rejected 401 msg_invalid)
        | Some decoded =>
            u <- call_findById (id decoded) ;;
            match u with
            | Threw => ret (Rejected 401 msg_invalid)
            | Null => ret (Rejected 401 msg_no_user)
            | Doc user => call_next (select_minus_password user)
            end
        end
    end.

End Protect.

(** [exports.authorize(...roles)]. *)
Definition authorize (roles : list string) (u : User) : option (Z * string) :=
  if existsb (String.eqb (role u)) roles then None
  else Some (403, "Bạn không có quyền truy cập").

End Auth.

(* ===================================================================== *)
(** ** Token verification *)
(* ===================================================================== *)

Module TokenService.

(** A token once its three segments are decoded. *)
Record Jwt := mkJwt {
  claims : Auth.Decoded;
  issued_at : Z;
  expiry : Z;
  signature : string
}.

Section Verify.

(** Decoding of the compact form; [None] for a malformed token. *)
Variable decode : string -> option Jwt.
(** The signature the secret gives to the token's header and payload. *)
Variable sign : string -> Auth.Decoded -> Z -> Z -> string.
(** The clock at verification time. *)
Variable now : Z.

Definition signature_matches (secret : string) (j : Jwt) : bool :=
  (signature j =? sign secret (claims j) (issued_at j) (expiry j))%string.

Definition expired (j : Jwt) : bool := expiry j <? now.

(** Modelled from the spec: [jwt.verify] belongs to the [jsonwebtoken]
    package, which is not among the sources.  Section 4.1: [verify]
    "checks signature validity and expiry.  Fails with InvalidToken if
    the signature does not match, the payload is malformed, or the expiry
    has passed.  Does not consult persistent state."  Failure is [None],
    which [Auth.protect] reads as a thrown exception. *)
Definition verify (token secret : string) : option Auth.Decoded :=
  match decode token with
  | None => None
  | Some j =>
      if negb (signature_matches secret j) then None
      else if expired j then None
      else Some (claims j)
  end.

End Verify.

End TokenService.

(* ===================================================================== *)
(** ** models/User.js: the pre-save hook *)
(* ===================================================================== *)

Module UserModel.

(** The document being saved: the field the hook touches and the paths
    Mongoose tracks as modified. *)
Record Document := mkDocument {
  password : string;
  modifiedPaths : list string
}.

(** [this.isModified(path)]. *)
Definition isModified (d : Document) (path : string) : bool :=
  existsb (String.eqb path) (modifiedPaths d).

Inductive Event :=
| EvNext
| EvGenSalt (rounds : Z)
| EvHash (data salt : string).

(** [this.password = v]: the path becomes modified when the value
    differs from the one held and the path is not modified already. *)
Definition assign_password (this : Document) (v : string) : Document :=
  mkDocument v
    (if (v =? password this)%string || isModified this "password"
     then modifiedPaths this
     else (modifiedPaths this ++ ["password"])%list).

(** The document as the rest of the save finds it at the moment the hook
    calls [next()]: the hook has not assigned to it yet.  [None] when the
    hook does not call [next]. *)
Definition at_next (this : Document) : option Document :=
  if negb (isModified this "password") then Some this else None.

Section PreSave.

(** [bcrypt.genSalt] and [bcrypt.hash]. *)
Variable bcrypt_genSalt : Z -> string.
Variable bcrypt_hash : string -> string -> string.

(** [userSchema.pre('save', ...)].  The body of the [if] is the call
    [next()] alone: there is no [return], so control reaches the two
    statements after it on both branches.  The result is the document
    once the hook has run to its end; the trace keeps the order of the
    calls, [next()] before the salt and the hash. *)
Definition pre_save (this : Document) : Document * list Event :=
  let t1 := if negb (isModified this "password") then [EvNext] else [] in
  let salt := bcrypt_genSalt 10 in
  let hashed := bcrypt_hash (password this) salt in
  (assign_password this hashed,
   (t1 ++ [EvGenSalt 10; EvHash (password this) salt])%list).

(** Number of hash computations in a trace. *)
Definition hash_count (tr : list Event) : nat :=
  List.length (filter (fun e => match e with EvHash _ _ => true | _ => false end) tr).

End PreSave.

End UserModel.

(* ===================================================================== *)
(** ** routes/transactions.js *)
(* ===================================================================== *)

Module Transactions.

(** Modelled from the spec: [models/Transaction.js] is not among the
    sources.  Fields as in section 3 of the specification (owning user,
    kind, category, amount, description, date, creation timestamp) under
    the names the routes use, plus the record id. *)
Record Transaction := mkTransaction {
  _id : string;
  user : string;
  type : string;
  category : string;
  amount : Q;
  description : string;
  date : Z;
  createdAt : Z
}.

(** The collection, in natural order. *)
Definition Store := list Transaction.

(** Record ids are unique in a collection. *)
Definition unique_ids (s : Store) : Prop := NoDup (map _id s).

(** [req.query] of the list route as the handler reads it: integers
    already read by [parseInt], dates by [new Date], and [category] and
    [search] after the [trim] sanitizer. *)
Record ListQuery := mkListQuery {
  q_page : option Z;
  q_limit : option Z;
  q_type : option string;
  q_category : option string;
  q_startDate : option Z;
  q_endDate : option Z;
  q_search : option string;
  q_sort : option string
}.

(** [req.body] of the update route. *)
Record UpdateBody := mkUpdateBody {
  b_user : option string;
  b_type : option string;
  b_category : option string;
  b_amount : option Q;
  b_description : option string;
  b_date : option Z;
  b_createdAt : option Z
}.

Record Page := mkPage {
  count : Z;
  total : Z;
  page : Z;
  pages : Z;
  data : list Transaction
}.

Inductive Body :=
| BErrors (errors : list string)
| BMessage (message : string)
| BFailure (message error : string)
| BData (message : option string) (doc : option Transaction)
| BPage (p : Page).

Record Response := mkResponse {
  status : Z;
  success : bool;
  body : Body
}.

Definition msg_not_found := "Không tìm thấy giao dịch".
Definition msg_list_failed := "Lỗi khi lấy danh sách giao dịch".
Definition msg_updated := "Cập nhật giao dịch thành công".
Definition msg_update_failed := "Lỗi khi cập nhật giao dịch".
Definition msg_deleted := "Xóa giao dịch thành công".

Definition not_found : Response := mkResponse 404 false (BMessage msg_not_found).
Definition validation_failed (errs : list string) : Response :=
  mkResponse 400 false (BErrors errs).

(** *** Validation chains *)

(** [.optional()]: an absent field passes. *)
Definition optional {A} (check : A -> bool) (v : option A) : bool :=
  match v with
  | Some a => check a
  | None => true
  end.

Definition isIn (allowed : list string) (s : string) : bool :=
  existsb (String.eqb s) allowed.

(** One chain: the field's name when its check fails. *)
Definition rule (field : string) (ok : bool) : list string :=
  if ok then [] else [field].

(** Lines 15-22: the fields in error. *)
Definition list_rules (q : ListQuery) : list string :=
  (rule "page" (optional (fun n => 1 <=? n) (q_page q)) ++
   rule "limit" (optional (fun n => (1 <=? n) && (n <=? 100)) (q_limit q)) ++
   rule "type" (optional (isIn ["thu"; "chi"]) (q_type q)) ++
   rule "sort" (optional (isIn ["date"; "-date"; "amount"; "-amount"]) (q_sort q)))%list.

(** Lines 174-176. *)
Definition put_rules (b : UpdateBody) : list string :=
  (rule "type" (optional (isIn ["thu"; "chi"]) (b_type b)) ++
   rule "amount" (optional (fun a => Qle_bool (1 # 100) a) (b_amount b)))%list.

Definition isEmpty {A} (l : list A) : bool :=
  match l with
  | [] => true
  | _ => false
  end.

(** *** The query object *)

Record DateCond := mkDateCond {
  gte : option Z;
  lte : option Z
}.

Record Filter := mkFilter {
  f_user : string;
  f_type : option string;
  f_category : option string;
  f_date : option DateCond;
  f_or : option string
}.

Definition present {A} (v : option A) : bool :=
  match v with
  | Some _ => true
  | None => false
  end.

Definition when_truthy (v : option string) : option string :=
  if JS.truthy v then v else None.

(** Lines 40-69. *)
Definition build_query (uid : string) (q : ListQuery) : Filter :=
  mkFilter uid
    (when_truthy (q_type q))
    (when_truthy (q_category q))
    (if present (q_startDate q) || present (q_endDate q)
     then Some (mkDateCond (q_startDate q) (q_endDate q))
     else None)
    (when_truthy (q_search q)).

(** Lines 35-36 and 72: the defaults. *)
Definition page_of (q : ListQuery) : Z := JS.int_or (q_page q) 1.
Definition limit_of (q : ListQuery) : Z := JS.int_or (q_limit q) 10.
Definition sort_of (q : ListQuery) : string := JS.or_else (q_sort q) "-date".

(** [Math.ceil(a / b)] on integers, [b] not zero. *)
Definition ceil_div (a b : Z) : Z := - ((- a) / b).

(** Stable insertion sort.  The store leaves the order of ties open; the
    model takes it to order them the same way on every query, by position
    in the collection. *)
Fixpoint insert_by (le : Transaction -> Transaction -> bool)
         (x : Transaction) (l : list Transaction) : list Transaction :=
  match l with
  | [] => [x]
  | y :: r => if le x y then x :: l else y :: insert_by le x r
  end.

Definition sort_by (le : Transaction -> Transaction -> bool)
           (l : list Transaction) : list Transaction :=
  fold_right (insert_by le) [] l.

(** [.sort(string)]: a leading ['-'] is descending. *)
Definition sort_docs (key : string) (l : list Transaction) : list Transaction :=
  if (key =? "date")%string then sort_by (fun a b => date a <=? date b) l
  else if (key =? "-date")%string then sort_by (fun a b => date b <=? date a) l
  else if (key =? "amount")%string then sort_by (fun a b => Qle_bool (amount a) (amount b)) l
  else if (key =? "-amount")%string then sort_by (fun a b => Qle_bool (amount b) (amount a)) l
  else l.

(** [.limit(n).skip(k)]: the store skips first, then limits. *)
Definition skip_limit (k n : Z) (l : list Transaction) : list Transaction :=
  firstn (Z.to_nat n) (skipn (Z.to_nat k) l).

(** [findOne({ _id, user })]. *)
Definition findOne (id uid : string) (s : Store) : option Transaction :=
  find (fun t => (_id t =? id)%string && (user t =? uid)%string) s.

(** Bare lookup by id. *)
Definition findById (id : string) (s : Store) : option Transaction :=
  find (fun t => (_id t =? id)%string) s.

Definition or_old {A} (supplied : option A) (old : A) : A :=
  match supplied with
  | Some v => v
  | None => old
  end.

(** The update document is applied as a [$set] of the supplied paths. *)
Definition apply_update (b : UpdateBody) (t : Transaction) : Transaction :=
  mkTransaction (_id t)
    (or_old (b_user b) (user t))
    (or_old (b_type b) (type t))
    (or_old (b_category b) (category t))
    (or_old (b_amount b) (amount t))
    (or_old (b_description b) (description t))
    (or_old (b_date b) (date t))
    (or_old (b_createdAt b) (createdAt t)).

(** [findByIdAndUpdate(id, body, { new: true })]: the updated document and
    the collection after the write. *)
Fixpoint findByIdAndUpdate (id : string) (b : UpdateBody) (s : Store)
  : option Transaction * Store :=
  match s with
  | [] => (None, [])
  | t :: r =>
      if (_id t =? id)%string
      then (Some (apply_update b t), apply_update b t :: r)
      else let (o, r') := findByIdAndUpdate id b r in (o, t :: r')
  end.

(** [doc.deleteOne()]: removes the document with the id of [doc]. *)
Fixpoint deleteOne (id : string) (s : Store) : Store :=
  match s with
  | [] => []
  | t :: r => if (_id t =? id)%string then r else t :: deleteOne id r
  end.

Section Handlers.

(** [{ $regex: pattern, $options: options }] on a subject. *)
Variable regex : string -> string -> string -> bool.
(** The store's refusal of a pattern it cannot compile: [Some e] when a
    query carrying [{ $regex: pattern, $options: options }] throws. *)
Variable regex_error : string -> string -> option string.
(** The schema's validators, run on an update by [runValidators: true]:
    [Some e] when they throw. *)
Variable update_validators : UpdateBody -> option string.

Definition opt_test {A} (c : option A) (test : A -> bool) : bool :=
  match c with
  | Some v => test v
  | None => true
  end.

(** Does a document satisfy the query object? *)
Definition matches (f : Filter) (t : Transaction) : bool :=
  (user t =? f_user f)%string
  && opt_test (f_type f) (fun ty => (type t =? ty)%string)
  && opt_test (f_category f) (fun c => (category t =? c)%string)
  && opt_test (f_date f) (fun d =>
       opt_test (gte d) (fun a => a <=? date t)
       && opt_test (lte d) (fun b => date t <=? b))
  && opt_test (f_or f) (fun s =>
       regex s "i" (description t) || regex s "i" (category t)).

(** [Transaction.find(query)] and [Transaction.countDocuments(query)]. *)
Definition Transaction_find (f : Filter) (s : Store) : list Transaction :=
  filter (matches f) s.

Definition countDocuments (f : Filter) (s : Store) : Z :=
  Z.of_nat (List.length (filter (matches f) s)).

(** The error a query throws in the store, if any: the search text goes
    into [$regex] as it came. *)
Definition query_error (f : Filter) : option string :=
  match f_or f with
  | Some pattern => regex_error pattern "i"
  | None => None
  end.

(** [router.get('/')].  A query that throws is answered by the [catch]
    branch. *)
Definition list_handler (s : Store) (uid : string) (q : ListQuery) : Response :=
  let errors := list_rules q in
  if negb (isEmpty errors) then validation_failed errors
  else
    let page := page_of q in
    let limit := limit_of q in
    let skip := (page - 1) * limit in
    let query := build_query uid q in
    let sort := sort_of q in
    match query_error query with
    | Some e => mkResponse 500 false (BFailure msg_list_failed e)
    | None =>
        let transactions :=
          skip_limit skip limit (sort_docs sort (Transaction_find query s)) in
        let total := countDocuments query s in
        mkResponse 200 true
          (BPage (mkPage (Z.of_nat (List.length transactions)) total page
                         (ceil_div total limit) transactions))
    end.

(** [router.get('/:id')]. *)
Definition get_handler (s : Store) (uid id : string) : Response :=
  match findOne id uid s with
  | None => not_found
  | Some t => mkResponse 200 true (BData None (Some t))
  end.

(** [router.put('/:id')]: the response and the collection afterwards. *)
Definition put_handler (s : Store) (uid id : string) (b : UpdateBody)
  : Response * Store :=
  let errors := put_rules b in
  if negb (isEmpty errors) then (validation_failed errors, s)
  else
    match findOne id uid s with
    | None => (not_found, s)
    | Some _ =>
        match update_validators b with
        | Some e => (mkResponse 500 false (BFailure msg_update_failed e), s)
        | None =>
            let (t', s') := findByIdAndUpdate id b s in
            (mkResponse 200 true (BData (Some msg_updated) t'), s')
        end
    end.

(** [router.delete('/:id')]. *)
Definition delete_handler (s : Store) (uid id : string) : Response * Store :=
  match findOne id uid s with
  | None => (not_found, s)
  | Some t => (mkResponse 200 true (BMessage msg_deleted), deleteOne (_id t) s)
  end.

End Handlers.

(** The rows a response carries. *)
Definition rows (r : Response) : list Transaction :=
  match body r with
  | BPage p => data p
  | _ => []
  end.

(** The same request for another page. *)
Definition at_page (q : ListQuery) (k : Z) : ListQuery :=
  mkListQuery (Some k) (q_limit q) (q_type q) (q_category q)
              (q_startDate q) (q_endDate q) (q_search q) (q_sort q).

(** The same request without its date bounds. *)
Definition without_dates (q : ListQuery) : ListQuery :=
  mkListQuery (q_page q) (q_limit q) (q_type q) (q_category q)
              None None (q_search q) (q_sort q).

(** The same request without its category filter. *)
Definition without_category (q : ListQuery) : ListQuery :=
  mkListQuery (q_page q) (q_limit q) (q_type q) None
              (q_startDate q) (q_endDate q) (q_search q) (q_sort q).

End Transactions.

(* ===================================================================== *)
(** ** Specification-side vocabulary *)
(* ===================================================================== *)

Module Spec.

(** The three ways the gate turns a request away (section 4.2). *)
Inductive Failure :=
| NoTokenPresented
| InvalidOrExpiredToken
| UnknownPrincipal.

Definition failure_message (f : Failure) : string :=
  match f with
  | NoTokenPresented => Auth.msg_login
  | InvalidOrExpiredToken => Auth.msg_invalid
  | UnknownPrincipal => Auth.msg_no_user
  end.

(** When a request, against a verifier and a user store, fails for the
    given reason. *)
Definition fails_for
    (jwt_verify : string -> string -> option Auth.Decoded) (secret : string)
    (User_findById : string -> Auth.Lookup)
    (req : Auth.Request) (f : Failure) : Prop :=
  match f with
  | NoTokenPresented => JS.truthy (Auth.extract_token req) = false
  | InvalidOrExpiredToken =>
      exists tok, Auth.extract_token req = Some tok /\ tok <> "" /\
                  jwt_verify tok secret = None
  | UnknownPrincipal =>
      exists tok d, Auth.extract_token req = Some tok /\ tok <> "" /\
                    jwt_verify tok secret = Some d /\
                    User_findById (Auth.id d) = Auth.Null
  end.

(** A field after an update, given what the request supplied for it. *)
Definition merged {A : Type} (supplied : option A) (old new : A) : Prop :=
  match supplied with
  | Some v => new = v
  | None => new = old
  end.

(** Inclusive bounds, each optional. *)
Definition in_range (d1 d2 : option Z) (x : Z) : bool :=
  match d1 with Some a => a <=? x | None => true end
  && match d2 with Some b => x <=? b | None => true end.

(** The full sorted set a list request pages through. *)
Definition sorted_matches (regex : string -> string -> string -> bool)
    (s : Transactions.Store) (uid : string) (q : Transactions.ListQuery)
  : list Transactions.Transaction :=
  Transactions.sort_docs (Transactions.sort_of q)
    (Transactions.Transaction_find regex (Transactions.build_query uid q) s).


End Spec.

(* ===================================================================== *)
(** ** Sample data *)
(* ===================================================================== *)

Module Sample.

Definition alice : Auth.User :=
  Auth.mkUser "u1" "Alice" "alice@example.com" (Some "$2a$10$hash")
              "default-avatar.png" "user" 0.

(** A verifier that accepts two tokens. *)
Definition verifier (tok secret : string) : option Auth.Decoded :=
  if (tok =? "good")%string then Some (Auth.mkDecoded "u1" "alice@example.com")
  else if (tok =? "ghost")%string then Some (Auth.mkDecoded "u0" "old@example.com")
  else None.

(** A user collection holding Alice alone. *)
Definition users (uid : string) : Auth.Lookup :=
  if (uid =? "u1")%string then Auth.Doc alice else Auth.Null.

(** A decoder that knows one token, which expired at 100 and carries a
    signature nobody issued. *)
Definition decoder (tok : string) : option TokenService.Jwt :=
  if (tok =? "stale")%string
  then Some (TokenService.mkJwt (Auth.mkDecoded "u1" "alice@example.com") 0 100 "forged")
  else None.

Definition signer (secret : string) (c : Auth.Decoded) (iat exp : Z) : string :=
  (secret ++ Auth.id c)%string.

(** A pattern read literally, case ignored. *)
Definition literal_regex (pattern options subject : string) : bool :=
  JS.ci_contains pattern subject.

(** Schema validators that accept every update. *)
Definition lenient (b : Transactions.UpdateBody) : option string := None.

Definition salary : Transactions.Transaction :=
  Transactions.mkTransaction "t1" "u1" "thu" "Salary" (100 # 1) "January pay"
                             1705276800000 1705276800000.

Definition food : Transactions.Transaction :=
  Transactions.mkTransaction "t2" "u1" "chi" "Food" (30 # 1) "Lunch"
                             1705708800000 1705708800000.

Definition rent : Transactions.Transaction :=
  Transactions.mkTransaction "t3" "u2" "chi" "Rent" (500 # 1) "Flat"
                             1706745600000 1706745600000.

Definition ledger : Transactions.Store := [salary; food; rent].

Definition no_filters : Transactions.ListQuery :=
  Transactions.mkListQuery None None None None None None None None.

(** One row per page. *)
Definition one_per_page : Transactions.ListQuery :=
  Transactions.mkListQuery None (Some 1) None None None None None None.



(** From the instant of the salary record to the instant of the food
    record, both included. *)
Definition mid_january : Transactions.ListQuery :=
  Transactions.mkListQuery None None None None
    (Some 1705276800000) (Some 1705708800000) None None.

Definition empty_update : Transactions.UpdateBody :=
  Transactions.mkUpdateBody None None None None None None None.

(** A user record saved with its password untouched. *)
Definition saved_user : UserModel.Document :=
  UserModel.mkDocument "$2a$10$storedhash" ["name"].

End Sample.

(* ===================================================================== *)
(** ** models/User.js: instance methods *)
(* ===================================================================== *)

Module UserMethods.

Section Methods.

(** [bcrypt.compare] and [jwt.sign]. *)
Variable bcrypt_compare : string -> string -> bool.
Variable jwt_sign : Auth.Decoded -> string -> string -> string.
Variable JWT_SECRET : string.
Variable JWT_EXPIRE : string.

(** [userSchema.methods.matchPassword]. *)
Definition matchPassword (this : UserModel.Document) (enteredPassword : string)
  : bool :=
  bcrypt_compare enteredPassword (UserModel.password this).

(** [userSchema.methods.getSignedJwtToken]: the payload is the id and the
    email. *)
Definition getSignedJwtToken (this : Auth.User) : string :=
  jwt_sign (Auth.mkDecoded (Auth._id this) (Auth.email this))
           JWT_SECRET JWT_EXPIRE.

End Methods.

End UserMethods.

(* ===================================================================== *)
(** ** routes/transactions.js: creation, and the routes behind the gate *)
(* ===================================================================== *)

Module Routes.

Import Transactions.

(** [req.body] of the create route; [category] and [description] after
    the [trim] sanitizer. *)
Record CreateBody := mkCreateBody {
  c_user : option string;
  c_type : option string;
  c_category : option string;
  c_amount : option Q;
  c_description : option string;
  c_date : option Z;
  c_createdAt : option Z
}.

Definition msg_created := "Thêm giao dịch thành công".
Definition msg_create_failed := "Lỗi khi tạo giao dịch".

(** A chain without [.optional()]: an absent field fails. *)
Definition required {A} (check : A -> bool) (v : option A) : bool :=
  match v with
  | Some a => check a
  | None => false
  end.

Definition notEmpty (s : string) : bool := negb (s =? "")%string.

(** Lines 135-139. *)
Definition post_rules (b : CreateBody) : list string :=
  (rule "type" (required (isIn ["thu"; "chi"]) (c_type b)) ++
   rule "category" (required notEmpty (c_category b)) ++
   rule "amount" (required (fun a => Qle_bool (1 # 100) a) (c_amount b)) ++
   rule "description" (required notEmpty (c_description b)) ++
   rule "date" (present (c_date b)))%list.

(** Line 152: [req.body.user = req.user.id]. *)
Definition set_user (uid : string) (b : CreateBody) : CreateBody :=
  mkCreateBody (Some uid) (c_type b) (c_category b) (c_amount b)
               (c_description b) (c_date b) (c_createdAt b).

(** [req.user.id]: the id of the user the gate attached. *)
Definition principal (u : Auth.User) : string := Auth._id u.

(** The gate's refusal as a response of the router. *)
Definition refused (st : Z) (m : string) : Response :=
  mkResponse st false (BMessage m).

Section Create.

(** The id the store gives to a new document. *)
Variable new_id : Store -> string.
(** The clock at creation. *)
Variable now : Z.
(** The schema's validators on creation: [Some e] when they throw. *)
Variable create_validators : CreateBody -> option string.

(** Modelled from the spec: [models/Transaction.js] is not among the
    sources.  Section 3 gives every transaction an owner, kind, category,
    amount, description and date, and a creation timestamp; a body that
    lacks one of the first six yields no document. *)
Definition document_of (id : string) (b : CreateBody) : option Transaction :=
  match c_user b, c_type b, c_category b, c_amount b, c_description b,
        c_date b with
  | Some u, Some ty, Some c, Some a, Some d, Some dt =>
      Some (mkTransaction id u ty c a d dt (or_old (c_createdAt b) now))
  | _, _, _, _, _, _ => None
  end.

(** [Transaction.create(body)]: the new document and the collection with
    it appended, or the error thrown. *)
Definition Transaction_create (b : CreateBody) (s : Store)
  : (string + Transaction) * Store :=
  match create_validators b with
  | Some e => (inl e, s)
  | None =>
      match document_of (new_id s) b with
      | Some t => (inr t, (s ++ [t])%list)
      | None => (inl "ValidationError", s)
      end
  end.

(** [router.post('/')]. *)
Definition post_handler (s : Store) (uid : string) (b : CreateBody)
  : Response * Store :=
  let errors := post_rules b in
  if negb (isEmpty errors) then (validation_failed errors, s)
  else
    match Transaction_create (set_user uid b) s with
    | (inr t, s') =>
        (mkResponse 201 true (BData (Some msg_created) (Some t)), s')
    | (inl e, _) => (mkResponse 500 false (BFailure msg_create_failed e), s)
    end.

End Create.

Section Router.

Variable jwt_verify : string -> string -> option Auth.Decoded.
Variable JWT_SECRET : string.
Variable User_findById : string -> Auth.Lookup.
Variable regex : string -> string -> string -> bool.
Variable regex_error : string -> string -> option string.
Variable update_validators : UpdateBody -> option string.
Variable new_id : Store -> string.
Variable now : Z.
Variable create_validators : CreateBody -> option string.

(** Line 9, [router.use(protect)]: a handler runs only when the gate
    hands the request on, and then for the user the gate attached. *)
Definition guarded (req : Auth.Request) (s : Store)
           (handler : string -> Response * Store) : Response * Store :=
  match fst (Auth.protect jwt_verify JWT_SECRET User_findById req) with
  | Auth.Rejected st m => (refused st m, s)
  | Auth.Continue u => handler (principal u)
  end.

Definition list_route (req : Auth.Request) (s : Store) (q : ListQuery)
  : Response * Store :=
  guarded req s (fun uid => (list_handler regex regex_error s uid q, s)).

Definition get_route (req : Auth.Request) (s : Store) (id : string)
  : Response * Store :=
  guarded req s (fun uid => (get_handler s uid id, s)).

Definition post_route (req : Auth.Request) (s : Store) (b : CreateBody)
  : Response * Store :=
  guarded req s (fun uid => post_handler new_id now create_validators s uid b).

Definition put_route (req : Auth.Request) (s : Store) (id : string)
           (b : UpdateBody) : Response * Store :=
  guarded req s (fun uid => put_handler update_validators s uid id b).

Definition delete_route (req : Auth.Request) (s : Store) (id : string)
  : Response * Store :=
  guarded req s (fun uid => delete_handler s uid id).

End Router.

End Routes.

(* ===================================================================== *)
(** ** models/User.js: the pattern of the email field *)
(* ===================================================================== *)

Module UserSchema.

(** Regular expressions over characters, with character classes given
    by their membership test. *)
Inductive re :=
| Nothing
| Eps
| Chr (p : ascii -> bool)
| Cat (r1 r2 : re)
| Alt (r1 r2 : re)
| Star (r : re).

(** [r+], [r?], and [r{2,3}]. *)
Definition Plus (r : re) : re := Cat r (Star r).
Definition Opt (r : re) : re := Alt Eps r.
Definition Rep23 (r : re) : re := Cat r (Cat r (Opt r)).

(** The strings of a regular expression. *)
Inductive lang : re -> list ascii -> Prop :=
| LEps : lang Eps []
| LChr (p : ascii -> bool) (c : ascii) : p c = true -> lang (Chr p) [c]
| LCat (r1 r2 : re) (s1 s2 : list ascii) :
    lang r1 s1 -> lang r2 s2 -> lang (Cat r1 r2) (s1 ++ s2)%list
| LAltL (r1 r2 : re) (s : list ascii) : lang r1 s -> lang (Alt r1 r2) s
| LAltR (r1 r2 : re) (s : list ascii) : lang r2 s -> lang (Alt r1 r2) s
| LStarNil (r : re) : lang (Star r) []
| LStarApp (r : re) (s1 s2 : list ascii) :
    lang r s1 -> lang (Star r) s2 -> lang (Star r) (s1 ++ s2)%list.

(** Matching by derivatives. *)
Fixpoint nullable (r : re) : bool :=
  match r with
  | Nothing => false
  | Eps => true
  | Chr _ => false
  | Cat r1 r2 => nullable r1 && nullable r2
  | Alt r1 r2 => nullable r1 || nullable r2
  | Star _ => true
  end.

Fixpoint deriv (c : ascii) (r : re) : re :=
  match r with
  | Nothing => Nothing
  | Eps => Nothing
  | Chr p => if p c then Eps else Nothing
  | Cat r1 r2 =>
      if nullable r1 then Alt (Cat (deriv c r1) r2) (deriv c r2)
      else Cat (deriv c r1) r2
  | Alt r1 r2 => Alt (deriv c r1) (deriv c r2)
  | Star r1 => Cat (deriv c r1) (Star r1)
  end.

Fixpoint accepts (r : re) (s : list ascii) : bool :=
  match s with
  | [] => nullable r
  | c :: s' => accepts (deriv c r) s'
  end.

(** [/^r$/.test(v)]. *)
Definition test (r : re) (v : string) : bool :=
  accepts r (list_ascii_of_string v).

(** [\w]: letters, digits and the underscore. *)
Definition word (c : ascii) : bool :=
  let n := nat_of_ascii c in
  (Nat.leb 48 n && Nat.leb n 57)
  || (Nat.leb 65 n && Nat.leb n 90)
  || (Nat.leb 97 n && Nat.leb n 122)
  || Nat.eqb n 95.

(** A single literal character. *)
Definition literal (c : ascii) : ascii -> bool := Ascii.eqb c.

(** [[\.-]]. *)
Definition dot_or_dash (c : ascii) : bool :=
  Ascii.eqb c "."%char || Ascii.eqb c "-"%char.

(** [\w+([\.-]?\w+)*]. *)
Definition labels : re :=
  Cat (Plus (Chr word))
      (Star (Cat (Opt (Chr dot_or_dash)) (Plus (Chr word)))).

(** [(\.\w{2,3})+]. *)
Definition endings : re :=
  Plus (Cat (Chr (literal "."%char)) (Rep23 (Chr word))).

(** Line 20: [/^\w+([\.-]?\w+)*@\w+([\.-]?\w+)*(\.\w{2,3})+$/]. *)
Definition email_pattern : re :=
  Cat labels (Cat (Chr (literal "@"%char)) (Cat labels endings)).

(** The test the [match] validator of the email path applies to a
    value. *)
Definition email_match (v : string) : bool := test email_pattern v.

(** Every character class of the expression lies within [P]. *)
Fixpoint classes_within (P : ascii -> Prop) (r : re) : Prop :=
  match r with
  | Chr p => forall c, p c = true -> P c
  | Cat r1 r2 => classes_within P r1 /\ classes_within P r2
  | Alt r1 r2 => classes_within P r1 /\ classes_within P r2
  | Star r1 => classes_within P r1
  | Nothing => True
  | Eps => True
  end.

(** A character of a label part: a word character, a dot or a dash. *)
Definition label_char (c : ascii) : Prop :=
  word c = true \/ c = "."%char \/ c = "-"%char.

End UserSchema.

(* ===================================================================== *)
(** ** Further vocabulary *)
(* ===================================================================== *)

Module Props.

Import Transactions.

(** The order a sort key asks for between a row and a later row. *)
Definition ordered_by (key : string) (a b : Transaction) : Prop :=
  if (key =? "date")%string then date a <= date b
  else if (key =? "-date")%string then date b <= date a
  else if (key =? "amount")%string then (amount a <= amount b)%Q
  else if (key =? "-amount")%string then (amount b <= amount a)%Q
  else True.

(** What the routes' validation chains check of a record's kind and
    amount. *)
Definition kind_amount_ok (t : Transaction) : Prop :=
  (type t = "thu" \/ type t = "chi") /\ (1 # 100 <= amount t)%Q.

(** The same request without its free-text search. *)
Definition without_search (q : ListQuery) : ListQuery :=
  mkListQuery (q_page q) (q_limit q) (q_type q) (q_category q)
              (q_startDate q) (q_endDate q) None (q_sort q).

(** A filter value the handler acts on: present and not empty. *)
Definition given (v : option string) (x : string) : Prop :=
  v = Some x /\ x <> "".

(** The successful answer of the by-id read. *)
Definition found (t : Transaction) : Response :=
  mkResponse 200 true (BData None (Some t)).

End Props.

(* ===================================================================== *)
(** ** Further sample data *)
(* ===================================================================== *)

Module Fixtures.

(** A stand-in for bcrypt that prefixes a mark. *)
Definition toy_salt (rounds : Z) : string := "salt".
Definition toy_hash (data salt : string) : string := String "#"%char data.
Definition toy_compare (entered hashed : string) : bool :=
  (hashed =? String "#"%char entered)%string.

(** A signer whose only token is the one [Sample.verifier] accepts for
    Alice. *)
Definition toy_sign (payload : Auth.Decoded) (secret ttl : string) : string :=
  "good".

Definition fresh_doc : UserModel.Document :=
  UserModel.mkDocument "hunter22" ["password"].

(** An id generator that counts the collection. *)
Definition next_id (s : Transactions.Store) : string :=
  String "n"%char (string_of_list_ascii
                     (repeat "x"%char (List.length s))).

Definition accept_all (b : Routes.CreateBody) : option string := None.

(** A pattern check that refuses a pattern starting with a quantifier. *)
Definition quantifier_first (pattern options : string) : option string :=
  if String.prefix "*" pattern
  then Some "Regular expression is invalid: quantifier does not follow a repeatable item"
  else None.

(** The list request that searches for a lone star. *)
Definition search_star : Transactions.ListQuery :=
  Transactions.mkListQuery None None None None None None (Some "*") None.

(** A request carrying both a cookie and a Bearer header. *)
Definition both_carriers : Auth.Request :=
  Auth.mkRequest (Some "good") (Some "Bearer junk").

(** A create request that names another user as owner. *)
Definition bonus : Routes.CreateBody :=
  Routes.mkCreateBody (Some "u2") (Some "thu") (Some "Bonus") (Some (50 # 1))
                      (Some "Year end") (Some 1706000000000) None.

Definition give_to_u2 : Transactions.UpdateBody :=
  Transactions.mkUpdateBody (Some "u2") None None None None None None.

Definition with_cookie (tok : string) : Auth.Request :=
  Auth.mkRequest (Some tok) None.

End Fixtures.

(* ===================================================================== *)
(** * Properties *)
(* ===================================================================== *)

(** ** The authentication gate *)

Section AuthFacts.

Import Auth.

Variable jwt_verify : string -> string -> option Decoded.
Variable JWT_SECRET : string.
Variable User_findById : string -> Lookup.

Local Abbreviation protect := (Auth.protect jwt_verify JWT_SECRET User_findById).

Lemma truthy_some (s : string) :
  JS.truthy (Some s) = true <-> s <> "".
Proof.
  unfold JS.truthy. destruct (String.eqb_spec s ""); simpl; split;
    congruence.
Qed.

Lemma truthy_false_cases (v : option string) :
  JS.truthy v = false <-> v = None \/ v = Some "".
Proof.
  destruct v as [s|]; simpl.
  - destruct (String.eqb_spec s ""); simpl; split; intros H;
      try subst; auto; try discriminate.
    destruct H as [H|H]; congruence.
  - split; auto.
Qed.

Lemma split_no_separator (c : ascii) (s : string) :
  JS.has_char c s = false -> JS.split c s = [s].
Proof.
  induction s as [|a s IH]; simpl; intros H.
  - reflexivity.
  - apply Bool.orb_false_iff in H. destruct H as [Ha Hs].
    rewrite Ha, (IH Hs). reflexivity.
Qed.

Lemma bearer_prefix_nonempty (h : string) :
  JS.startsWith "Bearer" h = true -> (h =? "")%string = false.
Proof. destruct h; simpl; [discriminate | reflexivity]. Qed.

(** With no usable token the gate answers 401 at once. *)
Lemma protect_no_token (req : Request) :
  JS.truthy (extract_token req) = false ->
  protect req = (Rejected 401 msg_login, []).
Proof. unfold Auth.protect. intros ->. reflexivity. Qed.

(** With a usable token the first external call is its verification. *)
Lemma protect_with_token (req : Request) (tok : string) :
  extract_token req = Some tok -> tok <> "" ->
  protect req =
    match jwt_verify tok JWT_SECRET with
    | None => (Rejected 401 msg_invalid, [EvVerify tok])
    | Some d =>
        match User_findById (id d) with
        | Threw => (Rejected 401 msg_invalid, [EvVerify tok; EvFindById (id d)])
        | Null => (Rejected 401 msg_no_user, [EvVerify tok; EvFindById (id d)])
        | Doc u => (Continue (select_minus_password u),
                    [EvVerify tok; EvFindById (id d); EvNext])
        end
    end.
Proof.
  intros E Hne. unfold Auth.protect. rewrite E.
  apply truthy_some in Hne. rewrite Hne. simpl.
  unfold call_verify, bind. destruct (jwt_verify tok JWT_SECRET) as [d|];
    [|reflexivity].
  unfold call_findById. destruct (User_findById (id d)); reflexivity.
Qed.

Lemma protect_first_call (req : Request) (tok : string) :
  extract_token req = Some tok -> tok <> "" ->
  exists out tr, protect req = (out, EvVerify tok :: tr).
Proof.
  intros E Hne. rewrite (protect_with_token req tok E Hne).
  destruct (jwt_verify tok JWT_SECRET) as [d|];
    [destruct (User_findById (id d))|]; eauto.
Qed.

Lemma protect_by_token (req1 req2 : Request) :
  extract_token req1 = extract_token req2 -> protect req1 = protect req2.
Proof. intros E. unfold Auth.protect. now rewrite E. Qed.

(** C6: the candidate token is looked for in the cookie first.  A cookie
    holding a token is the token that is verified, and the answer is the
    one the same request gets without its Authorization header, whatever
    that header holds.  Only without such a cookie is the header read: a
    header [Bearer <tok>] (one space, [tok] not empty and free of
    spaces) makes [tok] the token that is verified, also when an empty
    cookie is sent along; any header starting with Bearer gives its
    second space-separated part; a header that does not start with
    Bearer gives nothing.  With no token from either carrier the gate
    answers 401 "no token presented" and its trace is empty: no
    verification, no store lookup. *)
Theorem protect_token_precedence :
  (forall tok header,
     tok <> "" ->
     extract_token (mkRequest (Some tok) header) = Some tok
     /\ protect (mkRequest (Some tok) header)
        = protect (mkRequest (Some tok) None)
     /\ exists out tr,
          protect (mkRequest (Some tok) header) = (out, EvVerify tok :: tr))
  /\ (forall cookie tok,
        JS.truthy cookie = false ->
        tok <> "" -> JS.has_char " " tok = false ->
        extract_token (mkRequest cookie (Some ("Bearer " ++ tok))) = Some tok
        /\ protect (mkRequest cookie (Some ("Bearer " ++ tok)))
           = protect (mkRequest (Some tok) None)
        /\ exists out tr,
             protect (mkRequest cookie (Some ("Bearer " ++ tok)))
             = (out, EvVerify tok :: tr))
  /\ (forall cookie h,
        JS.truthy cookie = false ->
        JS.startsWith "Bearer" h = true ->
        extract_token (mkRequest cookie (Some h))
        = JS.index (JS.split " " h) 1)
  /\ (forall cookie h,
        JS.truthy cookie = false ->
        JS.startsWith "Bearer" h = false ->
        extract_token (mkRequest cookie (Some h)) = None
        /\ protect (mkRequest cookie (Some h)) = (Rejected 401 msg_login, []))
  /\ (forall cookie,
        JS.truthy cookie = false ->
        extract_token (mkRequest cookie None) = None
        /\ protect (mkRequest cookie None) = (Rejected 401 msg_login, [])).
Proof.
  split; [|split; [|split; [|split]]].
  - intros tok header Hne.
    assert (E : forall h, extract_token (mkRequest (Some tok) h) = Some tok).
    { intros h. unfold extract_token. simpl.
      apply truthy_some in Hne. simpl in Hne. now rewrite Hne. }
    split; [apply E|]. split.
    + apply protect_by_token. now rewrite !E.
    + apply protect_first_call; [apply E | exact Hne].
  - intros cookie tok Hc Hne Hs.
    assert (E : extract_token (mkRequest cookie (Some ("Bearer " ++ tok)))
                = Some tok).
    { unfold extract_token. simpl. rewrite Hc.
      change (JS.split " " ("Bearer " ++ tok))
        with ("Bearer" :: JS.split " " tok).
      rewrite (split_no_separator _ _ Hs). reflexivity. }
    split; [exact E|]. split.
    + apply protect_by_token. rewrite E. unfold extract_token. simpl.
      apply truthy_some in Hne. simpl in Hne. now rewrite Hne.
    + now apply protect_first_call.
  - intros cookie h Hc Hb. unfold extract_token. simpl.
    now rewrite Hc, Hb, (bearer_prefix_nonempty h Hb).
  - intros cookie h Hc Hb.
    assert (E : extract_token (mkRequest cookie (Some h)) = None).
    { unfold extract_token. simpl. rewrite Hc, Hb.
      now rewrite Bool.andb_false_r. }
    split; [exact E|]. apply protect_no_token. now rewrite E.
  - intros cookie Hc.
    assert (E : extract_token (mkRequest cookie None) = None).
    { unfold extract_token. simpl. now rewrite Hc. }
    split; [exact E|]. apply protect_no_token. now rewrite E.
Qed.

(** C10: with no token cookie and an Authorization header that starts
    with Bearer but has no space, hence no second part, no token is
    extracted and the gate answers 401 "no token presented", without
    attempting a verification. *)
Theorem bearer_without_token (req : Request) (h : string) :
  JS.truthy (cookies_token req) = false ->
  headers_authorization req = Some h ->
  JS.startsWith "Bearer" h = true ->
  JS.has_char " " h = false ->
  extract_token req = None /\
  protect req = (Rejected 401 msg_login, []).
Proof.
  intros Hc Hh Hb Hs.
  assert (E : extract_token req = None).
  { unfold extract_token. rewrite Hc, Hh, Hb, (bearer_prefix_nonempty h Hb).
    simpl. rewrite (split_no_separator _ _ Hs). reflexivity. }
  split; [exact E|]. apply protect_no_token. rewrite E. reflexivity.
Qed.

(** Whatever the reason, a request the gate turns away is answered 401. *)
Lemma protect_rejects_with_401 (req : Request) (st : Z) (m : string)
      (tr : list Event) :
  protect req = (Rejected st m, tr) -> st = 401.
Proof.
  destruct (JS.truthy (extract_token req)) eqn:Ht.
  - destruct (extract_token req) as [tok|] eqn:E; [|discriminate].
    rewrite (protect_with_token req tok E (proj1 (truthy_some tok) Ht)).
    destruct (jwt_verify tok JWT_SECRET) as [d|];
      [destruct (User_findById (id d))|]; congruence.
  - rewrite (protect_no_token req Ht). congruence.
Qed.

Lemma protect_fails_for (req : Request) (f : Spec.Failure) :
  Spec.fails_for jwt_verify JWT_SECRET User_findById req f ->
  exists tr, protect req = (Rejected 401 (Spec.failure_message f), tr).
Proof.
  destruct f; simpl.
  - intros H. rewrite (protect_no_token req H). eauto.
  - intros (tok & E & Hne & Hv).
    rewrite (protect_with_token req tok E Hne), Hv. eauto.
  - intros (tok & d & E & Hne & Hv & Hu).
    rewrite (protect_with_token req tok E Hne), Hv, Hu. eauto.
Qed.

Lemma failure_message_injective (f1 f2 : Spec.Failure) :
  f1 <> f2 -> Spec.failure_message f1 <> Spec.failure_message f2.
Proof.
  destruct f1, f2; intros Hne; try congruence; intros H;
    apply (f_equal String.length) in H; vm_compute in H; discriminate.
Qed.

(** C7: two requests that fail authentication, for whichever of the
    three reasons (no token presented, invalid or expired token, verified
    token whose user is gone), are both answered with status 401; the
    messages differ when the reasons differ. *)
Theorem auth_failures_share_status (req1 req2 : Request)
        (f1 f2 : Spec.Failure) :
  Spec.fails_for jwt_verify JWT_SECRET User_findById req1 f1 ->
  Spec.fails_for jwt_verify JWT_SECRET User_findById req2 f2 ->
  exists m1 m2 tr1 tr2,
    protect req1 = (Rejected 401 m1, tr1) /\
    protect req2 = (Rejected 401 m2, tr2) /\
    m1 = Spec.failure_message f1 /\
    m2 = Spec.failure_message f2 /\
    (f1 <> f2 -> m1 <> m2).
Proof.
  intros H1 H2.
  destruct (protect_fails_for req1 f1 H1) as [tr1 P1].
  destruct (protect_fails_for req2 f2 H2) as [tr2 P2].
  exists (Spec.failure_message f1), (Spec.failure_message f2), tr1, tr2.
  repeat split; auto using failure_message_injective.
Qed.

End AuthFacts.

(** Witnesses for the gate's properties. *)

Lemma protect_token_precedence_witness :
  (Auth.extract_token Fixtures.both_carriers = Some "good"
   /\ Auth.protect Sample.verifier "secret" Sample.users Fixtures.both_carriers
      = Auth.protect Sample.verifier "secret" Sample.users
                     (Auth.mkRequest (Some "good") None))
  /\ (Auth.extract_token (Auth.mkRequest (Some "") (Some "Bearer good"))
      = Some "good")
  /\ Auth.protect Sample.verifier "secret" Sample.users
                  (Auth.mkRequest None None)
     = (Auth.Rejected 401 Auth.msg_login, []).
Proof.
  destruct (protect_token_precedence Sample.verifier "secret" Sample.users)
    as (Hcookie & Hheader & _ & _ & Hnone).
  assert (Hgood : "good" <> "") by discriminate.
  split; [|split].
  - destruct (Hcookie "good" (Some "Bearer junk") Hgood) as (E & P & _).
    split; [exact E | exact P].
  - exact (proj1 (Hheader (Some "") "good" eq_refl Hgood eq_refl)).
  - exact (proj2 (Hnone None eq_refl)).
Defined.

Lemma bearer_without_token_witness :
  Auth.extract_token (Auth.mkRequest None (Some "Bearer")) = None /\
  Auth.protect Sample.verifier "secret" Sample.users
               (Auth.mkRequest None (Some "Bearer"))
  = (Auth.Rejected 401 Auth.msg_login, []).
Proof.
  apply (bearer_without_token Sample.verifier "secret" Sample.users
           (Auth.mkRequest None (Some "Bearer")) "Bearer"); reflexivity.
Defined.

Lemma auth_failures_share_status_witness :
  exists m1 m2 tr1 tr2,
    Auth.protect Sample.verifier "secret" Sample.users
                 (Auth.mkRequest (Some "junk") None)
    = (Auth.Rejected 401 m1, tr1) /\
    Auth.protect Sample.verifier "secret" Sample.users
                 (Auth.mkRequest None (Some "Bearer ghost"))
    = (Auth.Rejected 401 m2, tr2) /\
    m1 = Auth.msg_invalid /\ m2 = Auth.msg_no_user /\
    (Spec.InvalidOrExpiredToken <> Spec.UnknownPrincipal -> m1 <> m2).
Proof.
  apply (auth_failures_share_status Sample.verifier "secret" Sample.users
           (Auth.mkRequest (Some "junk") None)
           (Auth.mkRequest None (Some "Bearer ghost"))
           Spec.InvalidOrExpiredToken Spec.UnknownPrincipal).
  - exists "junk". repeat split. discriminate.
  - exists "ghost", (Auth.mkDecoded "u0" "old@example.com").
    repeat split. discriminate.
Defined.

(** ** Token verification behind the gate *)

Section TokenFacts.

Import Auth.

Variable decode : string -> option TokenService.Jwt.
Variable sign : string -> Decoded -> Z -> Z -> string.
Variable now : Z.
Variable JWT_SECRET : string.
Variable User_findById : string -> Lookup.

Local Abbreviation verify := (TokenService.verify decode sign now).

Lemma verify_rejects (tok : string) :
  (decode tok = None \/
   exists j, decode tok = Some j /\
             (TokenService.expiry j < now \/
              TokenService.signature_matches sign JWT_SECRET j = false)) ->
  verify tok JWT_SECRET = None.
Proof.
  unfold TokenService.verify.
  intros [-> | (j & -> & [Hexp | Hsig])]; [reflexivity | |].
  - destruct (TokenService.signature_matches sign JWT_SECRET j); simpl;
      [|reflexivity].
    unfold TokenService.expired.
    destruct (Z.ltb_spec (TokenService.expiry j) now); [reflexivity | lia].
  - rewrite Hsig. reflexivity.
Qed.

(** C8: a presented token whose expiry has passed is rejected with the
    invalid-or-expired answer whether or not its signature matches; so is
    a token whose signature does not match, and one that does not decode.
    The only external call is the verification itself: the user store is
    not read, and the answer does not depend on it. *)
Theorem stale_or_forged_token_rejected (req : Request) (tok : string) :
  extract_token req = Some tok -> tok <> "" ->
  (decode tok = None \/
   exists j, decode tok = Some j /\
             (TokenService.expiry j < now \/
              TokenService.signature_matches sign JWT_SECRET j = false)) ->
  verify tok JWT_SECRET = None /\
  Auth.protect verify JWT_SECRET User_findById req
  = (Rejected 401 msg_invalid, [EvVerify tok]).
Proof.
  intros E Hne Hbad. pose proof (verify_rejects tok Hbad) as Hv.
  split; [exact Hv|].
  rewrite (protect_with_token verify JWT_SECRET User_findById req tok E Hne).
  rewrite Hv. reflexivity.
Qed.

End TokenFacts.

Lemma stale_or_forged_token_rejected_witness :
  TokenService.verify Sample.decoder Sample.signer 200 "stale" "secret" = None /\
  Auth.protect (TokenService.verify Sample.decoder Sample.signer 200)
               "secret" Sample.users (Auth.mkRequest (Some "stale") None)
  = (Auth.Rejected 401 Auth.msg_invalid, [Auth.EvVerify "stale"]).
Proof.
  apply (stale_or_forged_token_rejected Sample.decoder Sample.signer 200
           "secret" Sample.users (Auth.mkRequest (Some "stale") None) "stale").
  - reflexivity.
  - discriminate.
  - right. exists (TokenService.mkJwt (Auth.mkDecoded "u1" "alice@example.com")
                                      0 100 "forged").
    split; [reflexivity|]. left. simpl. lia.
Defined.

(** ** The pre-save hook of the user model *)

Section UserFacts.

Import UserModel.

Variable bcrypt_genSalt : Z -> string.
Variable bcrypt_hash : string -> string -> string.

Local Abbreviation pre_save := (UserModel.pre_save bcrypt_genSalt bcrypt_hash).

(** The hook computes one hash on every save, modified password or not. *)
Lemma pre_save_always_hashes (d : Document) :
  hash_count (snd (pre_save d)) = 1%nat /\
  password (fst (pre_save d)) = bcrypt_hash (password d) (bcrypt_genSalt 10).
Proof.
  unfold UserModel.pre_save, hash_count. simpl.
  destruct (isModified d "password"); simpl; auto.
Qed.

(** C3, where the hook departs from it: saving a user whose password
    path is not modified calls [next], at which moment the document is
    still as it was, and then still hashes: the document's password
    becomes the hash of the value that was already stored, the path is
    marked modified unless that hash equals the stored value, and one
    hash computation is recorded. *)
Theorem pre_save_rehashes_unmodified :
  isModified Sample.saved_user "password" = false /\
  at_next Sample.saved_user = Some Sample.saved_user /\
  pre_save Sample.saved_user =
    (mkDocument (bcrypt_hash "$2a$10$storedhash" (bcrypt_genSalt 10))
       (if (bcrypt_hash "$2a$10$storedhash" (bcrypt_genSalt 10)
            =? "$2a$10$storedhash")%string
        then ["name"] else ["name"; "password"]),
     [EvNext; EvGenSalt 10; EvHash "$2a$10$storedhash" (bcrypt_genSalt 10)]) /\
  hash_count (snd (pre_save Sample.saved_user)) = 1%nat.
Proof.
  split; [reflexivity|]. split; [reflexivity|]. split; [|reflexivity].
  unfold UserModel.pre_save, assign_password. simpl.
  rewrite Bool.orb_false_r. reflexivity.
Qed.

End UserFacts.

(** ** Transaction routes: ownership *)

Section OwnershipFacts.

Import Transactions.

Variable update_validators : UpdateBody -> option string.

Local Abbreviation put_handler := (Transactions.put_handler update_validators).

Lemma find_none_iff {A : Type} (f : A -> bool) (l : list A) :
  find f l = None <-> forall x, In x l -> f x = false.
Proof.
  split; [apply find_none|].
  induction l as [|a l IH]; simpl; intros H; [reflexivity|].
  rewrite (H a (or_introl eq_refl)). apply IH. intros x Hx. apply H. now right.
Qed.

(** In a collection with unique ids a document is determined by its id. *)
Lemma unique_ids_inj (s : Store) (x y : Transaction) :
  unique_ids s -> In x s -> In y s -> _id x = _id y -> x = y.
Proof.
  unfold unique_ids. induction s as [|a s IH]; simpl; [tauto|].
  intros Hnd [Hx|Hx] [Hy|Hy] E; inversion Hnd as [|? ? Hnotin Hnd']; subst.
  - reflexivity.
  - exfalso. apply Hnotin. rewrite E. now apply in_map.
  - exfalso. apply Hnotin. rewrite <- E. now apply in_map.
  - now apply IH.
Qed.

Lemma findOne_other_owner (s : Store) (t : Transaction) (B : string) :
  unique_ids s -> In t s -> user t <> B -> findOne (_id t) B s = None.
Proof.
  intros Hu Ht Hne. apply find_none_iff. intros x Hx.
  destruct (String.eqb_spec (_id x) (_id t)) as [E|]; [|reflexivity].
  rewrite (unique_ids_inj s x t Hu Hx Ht E). simpl.
  now apply String.eqb_neq.
Qed.

Lemma findOne_absent (s : Store) (id B : string) :
  findById id s = None -> findOne id B s = None.
Proof.
  intros H. apply find_none_iff. intros x Hx.
  apply (proj1 (find_none_iff _ _) H) in Hx.
  cbv beta in Hx. rewrite Hx. reflexivity.
Qed.

(** The three by-id routes when the lookup finds nothing. *)
Lemma handlers_when_not_found (s : Store) (id B : string) :
  findOne id B s = None ->
  get_handler s B id = not_found /\
  delete_handler s B id = (not_found, s) /\
  forall b, put_handler s B id b =
            if negb (isEmpty (put_rules b))
            then (validation_failed (put_rules b), s)
            else (not_found, s).
Proof.
  intros H. unfold get_handler, delete_handler, Transactions.put_handler.
  rewrite H. split; [reflexivity | split; [reflexivity|]].
  intros b. destruct (negb (isEmpty (put_rules b))); reflexivity.
Qed.

(** C1: in a collection with unique record ids, for users A and B, A
    different from B, and a transaction owned by A, each by-id route called
    by B with that transaction's id answers NotFound (the update route once
    its body has passed the route's validation chains), leaves the
    collection as it was, and answers exactly as it does for an id that no
    record has. *)
Theorem cross_user_access_not_found
        (s : Store) (A B : string) (t : Transaction) :
  unique_ids s -> In t s -> user t = A -> A <> B ->
  get_handler s B (_id t) = not_found
  /\ delete_handler s B (_id t) = (not_found, s)
  /\ (forall b, snd (put_handler s B (_id t) b) = s /\
                (put_rules b = [] ->
                 put_handler s B (_id t) b = (not_found, s)))
  /\ (forall id', findById id' s = None ->
        get_handler s B id' = get_handler s B (_id t) /\
        delete_handler s B id' = delete_handler s B (_id t) /\
        forall b, put_handler s B id' b = put_handler s B (_id t) b).
Proof.
  intros Hu Ht HA Hne.
  assert (Hnone : findOne (_id t) B s = None).
  { apply findOne_other_owner; congruence. }
  destruct (handlers_when_not_found s (_id t) B Hnone) as (G & D & P).
  split; [exact G | split; [exact D | split]].
  - intros b. rewrite P. split.
    + destruct (negb (isEmpty (put_rules b))); reflexivity.
    + intros ->. reflexivity.
  - intros id' Habs.
    destruct (handlers_when_not_found s id' B (findOne_absent s id' B Habs))
      as (G' & D' & P').
    split; [congruence | split; [congruence|]].
    intros b. rewrite P, P'. reflexivity.
Qed.

End OwnershipFacts.

Lemma sample_ledger_unique : Transactions.unique_ids Sample.ledger.
Proof.
  unfold Transactions.unique_ids. simpl.
  repeat constructor; simpl; intuition discriminate.
Qed.

Lemma cross_user_access_not_found_witness :
  Transactions.get_handler Sample.ledger "u2" "t1" = Transactions.not_found /\
  Transactions.delete_handler Sample.ledger "u2" "t1"
  = (Transactions.not_found, Sample.ledger) /\
  Transactions.put_handler Sample.lenient Sample.ledger "u2" "t1"
                           Sample.empty_update
  = (Transactions.not_found, Sample.ledger).
Proof.
  pose proof (cross_user_access_not_found Sample.lenient Sample.ledger
                "u1" "u2" Sample.salary sample_ledger_unique
                (or_introl eq_refl) eq_refl) as H.
  assert (Hne : "u1" <> "u2") by discriminate.
  destruct (H Hne) as (G & D & P & _).
  split; [exact G | split; [exact D|]].
  exact (proj2 (P Sample.empty_update) eq_refl).
Defined.

(** ** Transaction routes: update *)

Section UpdateFacts.

Import Transactions.

Variable update_validators : UpdateBody -> option string.

Local Abbreviation put_handler := (Transactions.put_handler update_validators).

Lemma findOne_some (s : Store) (id uid : string) (t : Transaction) :
  findOne id uid s = Some t -> In t s /\ _id t = id /\ user t = uid.
Proof.
  intros H. apply find_some in H. destruct H as [Hin Hb].
  apply Bool.andb_true_iff in Hb. destruct Hb as [H1 H2].
  apply String.eqb_eq in H1, H2. auto.
Qed.

Lemma map_id_absent (b : UpdateBody) (id : string) (s : Store) :
  ~ In id (map _id s) ->
  map (fun x => if (_id x =? id)%string then apply_update b x else x) s = s.
Proof.
  induction s as [|a s IH]; simpl; intros H; [reflexivity|].
  destruct (String.eqb_spec (_id a) id) as [E|_]; [tauto|].
  rewrite IH; tauto.
Qed.

(** With unique ids the write touches the one document with that id. *)
Lemma findByIdAndUpdate_spec (b : UpdateBody) (s : Store) (t : Transaction) :
  unique_ids s -> In t s ->
  findByIdAndUpdate (_id t) b s =
    (Some (apply_update b t),
     map (fun x => if (_id x =? _id t)%string then apply_update b x else x) s).
Proof.
  unfold unique_ids. induction s as [|a s IH]; simpl; [tauto|].
  intros Hnd Hin. inversion Hnd as [|? ? Hnotin Hnd']; subst.
  destruct (String.eqb_spec (_id a) (_id t)) as [E|Hne].
  - assert (a = t).
    { destruct Hin as [|Hin]; [assumption|].
      exfalso. apply Hnotin. rewrite E. now apply in_map. }
    subst a. rewrite map_id_absent by assumption. reflexivity.
  - destruct Hin as [->|Hin]; [congruence|].
    rewrite (IH Hnd' Hin). reflexivity.
Qed.

Lemma merged_or_old {A : Type} (supplied : option A) (old : A) :
  Spec.merged supplied old (or_old supplied old).
Proof. destruct supplied; reflexivity. Qed.

(** C9: in a collection with unique record ids, an update of a
    transaction the caller owns, with a body that passes the route's
    validation chains and the schema's validators, is
    answered 200 with the merged record: each field the body supplies has
    the supplied value, each field it leaves out (owner, kind, category,
    amount, description, date, creation time) keeps its former value, the
    id is kept, and every other record of the collection is untouched. *)
Theorem update_merges_supplied_fields
        (s : Store) (uid id : string) (b : UpdateBody) (t : Transaction) :
  unique_ids s -> findOne id uid s = Some t ->
  put_rules b = [] -> update_validators b = None ->
  exists t',
    put_handler s uid id b =
      (mkResponse 200 true (BData (Some msg_updated) (Some t')),
       map (fun x => if (_id x =? id)%string then t' else x) s)
    /\ _id t' = _id t
    /\ Spec.merged (b_user b) (user t) (user t')
    /\ Spec.merged (b_type b) (type t) (type t')
    /\ Spec.merged (b_category b) (category t) (category t')
    /\ Spec.merged (b_amount b) (amount t) (amount t')
    /\ Spec.merged (b_description b) (description t) (description t')
    /\ Spec.merged (b_date b) (date t) (date t')
    /\ Spec.merged (b_createdAt b) (createdAt t) (createdAt t').
Proof.
  intros Hu Hf Hr Hv. destruct (findOne_some s id uid t Hf) as (Hin & Hid & _).
  subst id. exists (apply_update b t). split.
  - unfold Transactions.put_handler.
    rewrite Hr, Hf, Hv, (findByIdAndUpdate_spec b s t Hu Hin). simpl.
    f_equal. apply map_ext_in. intros x Hx.
    destruct (String.eqb_spec (_id x) (_id t)) as [E|]; [|reflexivity].
    now rewrite (unique_ids_inj s x t Hu Hx Hin E).
  - simpl. repeat split; apply merged_or_old.
Qed.

End UpdateFacts.

Lemma update_merges_supplied_fields_witness :
  exists t',
    Transactions.put_handler Sample.lenient Sample.ledger "u1" "t2"
      (Transactions.mkUpdateBody None None (Some "Dining") None None None None)
    = (Transactions.mkResponse 200 true
         (Transactions.BData (Some Transactions.msg_updated) (Some t')),
       [Sample.salary; t'; Sample.rent])
    /\ Transactions.category t' = "Dining"
    /\ Transactions.amount t' = Transactions.amount Sample.food
    /\ Transactions.user t' = "u1".
Proof.
  destruct (update_merges_supplied_fields Sample.lenient Sample.ledger
              "u1" "t2"
              (Transactions.mkUpdateBody None None (Some "Dining")
                                         None None None None)
              Sample.food sample_ledger_unique eq_refl eq_refl eq_refl)
    as (t' & Hp & _ & Huser & _ & Hcat & Hamt & _).
  exists t'. repeat split; assumption.
Defined.

(** ** Transaction routes: listing *)

Section ListFacts.

Import Transactions.

Variable regex : string -> string -> string -> bool.
Variable regex_error : string -> string -> option string.

Local Abbreviation list_handler :=
  (Transactions.list_handler regex regex_error).
Local Abbreviation query_error := (Transactions.query_error regex_error).
Local Abbreviation Transaction_find := (Transactions.Transaction_find regex).
Local Abbreviation matches := (Transactions.matches regex).
Local Abbreviation sorted_matches := (Spec.sorted_matches regex).

(** *** Sorting rearranges, nothing more *)

Lemma insert_by_perm (le : Transaction -> Transaction -> bool)
      (x : Transaction) (l : list Transaction) :
  Permutation (insert_by le x l) (x :: l).
Proof.
  induction l as [|y r IH]; simpl; [reflexivity|].
  destruct (le x y); [reflexivity|].
  rewrite IH. apply perm_swap.
Qed.

Lemma sort_by_perm (le : Transaction -> Transaction -> bool)
      (l : list Transaction) :
  Permutation (sort_by le l) l.
Proof.
  induction l as [|x r IH]; simpl; [reflexivity|].
  rewrite insert_by_perm. now constructor.
Qed.

Lemma sort_docs_perm (key : string) (l : list Transaction) :
  Permutation (sort_docs key l) l.
Proof.
  unfold sort_docs.
  repeat match goal with
         | |- context [if ?c then _ else _] => destruct c
         end; auto using sort_by_perm.
Qed.

(** *** Validation gives the ranges the handler relies on *)

Lemma rule_nil (field : string) (ok : bool) : rule field ok = [] -> ok = true.
Proof. destruct ok; [reflexivity | discriminate]. Qed.

Lemma list_rules_ranges (q : ListQuery) :
  list_rules q = [] ->
  1 <= page_of q /\ 1 <= limit_of q <= 100.
Proof.
  unfold list_rules. intros H.
  apply app_eq_nil in H. destruct H as [Hp H].
  apply app_eq_nil in H. destruct H as [Hl _].
  apply rule_nil in Hp, Hl. unfold page_of, limit_of, JS.int_or.
  destruct (q_page q) as [n|], (q_limit q) as [m|]; simpl in Hp, Hl;
    repeat match goal with
           | |- context [?a =? 0] => destruct (Z.eqb_spec a 0)
           end; lia.
Qed.

Lemma list_rules_at_page (q : ListQuery) (k : Z) :
  list_rules q = [] -> 1 <= k -> list_rules (at_page q k) = [].
Proof.
  unfold list_rules. intros H Hk.
  apply app_eq_nil in H. destruct H as [_ H]. simpl.
  destruct (Z.leb_spec 1 k); [|lia]. exact H.
Qed.

Lemma list_handler_valid (s : Store) (uid : string) (q : ListQuery) :
  list_rules q = [] -> query_error (build_query uid q) = None ->
  list_handler s uid q =
    let rows := skip_limit ((page_of q - 1) * limit_of q) (limit_of q)
                           (sorted_matches s uid q) in
    mkResponse 200 true
      (BPage (mkPage (Z.of_nat (List.length rows))
                     (countDocuments regex (build_query uid q) s)
                     (page_of q)
                     (ceil_div (countDocuments regex (build_query uid q) s)
                               (limit_of q))
                     rows)).
Proof.
  intros H E. unfold Transactions.list_handler. rewrite H. simpl.
  rewrite E. reflexivity.
Qed.

Lemma list_handler_throws (s : Store) (uid : string) (q : ListQuery)
      (e : string) :
  list_rules q = [] -> query_error (build_query uid q) = Some e ->
  list_handler s uid q = mkResponse 500 false (BFailure msg_list_failed e).
Proof.
  intros H E. unfold Transactions.list_handler. rewrite H. simpl.
  rewrite E. reflexivity.
Qed.

(** A request without search text cannot make the query throw. *)
Lemma query_error_without_search (uid : string) (q : ListQuery) :
  JS.truthy (q_search q) = false -> query_error (build_query uid q) = None.
Proof.
  intros H. unfold Transactions.query_error, build_query, when_truthy. simpl.
  now rewrite H.
Qed.

(** *** Pages tile the list *)

Local Open Scope nat_scope.

Lemma firstn_plus {A : Type} (a b : nat) (l : list A) :
  firstn (a + b) l = (firstn a l ++ firstn b (skipn a l))%list.
Proof.
  revert l. induction a as [|a IH]; intros l; simpl; [reflexivity|].
  destruct l as [|x l]; simpl.
  - now rewrite firstn_nil.
  - now rewrite IH.
Qed.

Lemma pages_tile {A : Type} (p n : nat) (l : list A) :
  List.concat (map (fun k => firstn p (skipn ((k - 1) * p) l)) (seq 1 n))
  = firstn (n * p) l.
Proof.
  induction n as [|n IH]; [reflexivity|].
  rewrite seq_S, map_app, concat_app, IH. simpl.
  rewrite app_nil_r, Nat.sub_0_r, (Nat.add_comm p (n * p)).
  symmetry. apply firstn_plus.
Qed.

Local Close Scope nat_scope.

Lemma ceil_div_bounds (a b : Z) :
  0 < b -> a <= ceil_div a b * b < a + b.
Proof.
  intros Hb. unfold ceil_div.
  pose proof (Z.div_mod (- a) b ltac:(lia)) as E.
  pose proof (Z.mod_pos_bound (- a) b Hb) as M.
  nia.
Qed.

Lemma build_query_at_page (uid : string) (q : ListQuery) (k : Z) :
  build_query uid (at_page q k) = build_query uid q.
Proof. reflexivity. Qed.

Lemma skip_limit_incl (k n : Z) (l : list Transaction) (t : Transaction) :
  In t (skip_limit k n l) -> In t l.
Proof.
  unfold skip_limit. intros H.
  rewrite <- (firstn_skipn (Z.to_nat k) l). apply in_or_app. right.
  rewrite <- (firstn_skipn (Z.to_nat n) (skipn (Z.to_nat k) l)).
  apply in_or_app. now left.
Qed.

(** The rows of a valid request, in terms of the list operations. *)
Lemma rows_of_valid (s : Store) (uid : string) (q : ListQuery) :
  list_rules q = [] -> query_error (build_query uid q) = None ->
  rows (list_handler s uid q)
  = firstn (Z.to_nat (limit_of q))
      (skipn (Z.to_nat ((page_of q - 1) * limit_of q))
             (sorted_matches s uid q)).
Proof.
  intros Hv Hq. now rewrite (list_handler_valid s uid q Hv Hq).
Qed.

(** The rows of pages 1 to the last, one after the other. *)
Lemma rows_concat (s : Store) (uid : string) (q : ListQuery) :
  list_rules q = [] -> query_error (build_query uid q) = None ->
  List.concat
    (map (fun k => rows (list_handler s uid (at_page q (Z.of_nat k))))
         (seq 1 (Z.to_nat
                   (ceil_div (Z.of_nat (List.length
                                          (Transaction_find (build_query uid q) s)))
                             (limit_of q)))))
  = sorted_matches s uid q.
Proof.
  intros Hv Hq. destruct (list_rules_ranges q Hv) as (_ & Hlim).
  assert (Hperm : Permutation (sorted_matches s uid q)
                              (Transaction_find (build_query uid q) s))
    by apply sort_docs_perm.
  rewrite <- (Permutation_length Hperm).
  set (L := sorted_matches s uid q).
  set (P := limit_of q) in *.
  pose proof (ceil_div_bounds (Z.of_nat (List.length L)) P ltac:(lia)) as Hc.
  set (n := ceil_div (Z.of_nat (List.length L)) P) in *.
  rewrite (map_ext_in _
             (fun k => firstn (Z.to_nat P) (skipn ((k - 1) * Z.to_nat P) L))).
  - rewrite pages_tile. apply firstn_all2. nia.
  - intros k Hk. apply in_seq in Hk.
    rewrite (rows_of_valid s uid (at_page q (Z.of_nat k)))
      by (try apply list_rules_at_page; try exact Hv; try exact Hq; lia).
    change (limit_of (at_page q (Z.of_nat k))) with P.
    change (sorted_matches s uid (at_page q (Z.of_nat k))) with L.
    f_equal. f_equal. unfold page_of. simpl.
    destruct (Z.eqb_spec (Z.of_nat k) 0); nia.
Qed.

End ListFacts.

(** ** Transaction routes: the filters of the list query *)

Section FilterFacts.

Import Transactions.

Variable regex : string -> string -> string -> bool.

Local Abbreviation Transaction_find := (Transactions.Transaction_find regex).
Local Abbreviation matches := (Transactions.matches regex).

Lemma filter_andb {A : Type} (f g : A -> bool) (l : list A) :
  filter (fun x => f x && g x) l = filter g (filter f l).
Proof.
  induction l as [|a l IH]; simpl; [reflexivity|].
  destruct (f a); simpl; [destruct (g a)|]; now rewrite IH.
Qed.

Lemma filter_all {A : Type} (f : A -> bool) (l : list A) :
  (forall x, f x = true) -> filter f l = l.
Proof.
  intros H. induction l as [|a l IH]; simpl; [reflexivity|].
  now rewrite H, IH.
Qed.

Lemma matches_without_dates (uid : string) (q : ListQuery) (t : Transaction) :
  matches (build_query uid q) t =
  matches (build_query uid (without_dates q)) t
  && Spec.in_range (q_startDate q) (q_endDate q) (date t).
Proof.
  unfold Transactions.matches, build_query, Spec.in_range. simpl.
  destruct (q_startDate q), (q_endDate q); simpl; btauto.
Qed.


Lemma find_without_dates (s : Store) (uid : string) (q : ListQuery) :
  Transaction_find (build_query uid q) s =
  filter (fun t => Spec.in_range (q_startDate q) (q_endDate q) (date t))
         (Transaction_find (build_query uid (without_dates q)) s).
Proof.
  unfold Transactions.Transaction_find. rewrite <- filter_andb.
  apply filter_ext. intros t. apply matches_without_dates.
Qed.

Lemma matches_owner (f : Filter) (t : Transaction) :
  matches f t = true -> user t = f_user f.
Proof.
  unfold Transactions.matches. intros H.
  repeat (apply Bool.andb_true_iff in H; destruct H as [H _]).
  now apply String.eqb_eq.
Qed.


End FilterFacts.

Section DateRangeFacts.

Import Transactions.

Variable regex : string -> string -> string -> bool.
Variable regex_error : string -> string -> option string.

Local Abbreviation list_handler :=
  (Transactions.list_handler regex regex_error).
Local Abbreviation query_error := (Transactions.query_error regex_error).
Local Abbreviation Transaction_find := (Transactions.Transaction_find regex).

(** C5: the set a list request selects is the set the same request
    without date bounds selects, cut down to the records whose date lies
    within the bounds given, both ends included; a bound given alone
    constrains its own side only; with neither bound no date constraint
    applies; every selected record is owned by the caller, and with no
    other filter the undated selection is all the caller's records.  On a
    request that passes validation and whose query the store accepts,
    the response is a page whose [total] counts this set and whose rows
    all come from it; when the set fits on the first page the rows are
    this set, each record once; and in any case every record of the set
    is a row of one of the pages 1 to [pages]. *)
Theorem date_range_filter (s : Store) (uid : string) (q : ListQuery) :
  Transaction_find (build_query uid q) s =
    filter (fun t => Spec.in_range (q_startDate q) (q_endDate q) (date t))
           (Transaction_find (build_query uid (without_dates q)) s)
  /\ (forall t d1 d2,
        q_startDate q = Some d1 -> q_endDate q = Some d2 ->
        (In t (Transaction_find (build_query uid q) s) <->
         In t (Transaction_find (build_query uid (without_dates q)) s)
         /\ d1 <= date t <= d2))
  /\ (forall t d1,
        q_startDate q = Some d1 -> q_endDate q = None ->
        (In t (Transaction_find (build_query uid q) s) <->
         In t (Transaction_find (build_query uid (without_dates q)) s)
         /\ d1 <= date t))
  /\ (forall t d2,
        q_startDate q = None -> q_endDate q = Some d2 ->
        (In t (Transaction_find (build_query uid q) s) <->
         In t (Transaction_find (build_query uid (without_dates q)) s)
         /\ date t <= d2))
  /\ (q_startDate q = None -> q_endDate q = None ->
      Transaction_find (build_query uid q) s =
      Transaction_find (build_query uid (without_dates q)) s)
  /\ (forall t, In t (Transaction_find (build_query uid (without_dates q)) s) ->
                In t s /\ user t = uid)
  /\ (JS.truthy (q_type q) = false -> JS.truthy (q_category q) = false ->
      JS.truthy (q_search q) = false ->
      Transaction_find (build_query uid (without_dates q)) s =
      filter (fun t => (user t =? uid)%string) s)
  /\ (list_rules q = [] -> query_error (build_query uid q) = None ->
      exists p,
        list_handler s uid q = mkResponse 200 true (BPage p)
        /\ total p =
           Z.of_nat (List.length (Transaction_find (build_query uid q) s))
        /\ (forall t, In t (data p) ->
                      In t (Transaction_find (build_query uid q) s))
        /\ (page_of q = 1 -> total p <= limit_of q ->
            Permutation (data p) (Transaction_find (build_query uid q) s))
        /\ (forall t, In t (Transaction_find (build_query uid q) s) ->
              exists k, (1 <= k <= Z.to_nat (pages p))%nat /\
                        In t (rows (list_handler s uid
                                      (at_page q (Z.of_nat k)))))).
Proof.
  pose proof (find_without_dates regex s uid q) as E.
  split; [exact E|].
  split; [|split; [|split; [|split; [|split; [|split]]]]].
  - intros t d1 d2 H1 H2. rewrite E, filter_In. unfold Spec.in_range.
    rewrite H1, H2, Bool.andb_true_iff, !Z.leb_le. tauto.
  - intros t d1 H1 H2. rewrite E, filter_In. unfold Spec.in_range.
    rewrite H1, H2, Bool.andb_true_iff, Z.leb_le. tauto.
  - intros t d2 H1 H2. rewrite E, filter_In. unfold Spec.in_range.
    rewrite H1, H2, Bool.andb_true_iff, Z.leb_le. tauto.
  - intros H1 H2. rewrite E. unfold Spec.in_range. rewrite H1, H2.
    apply filter_all. reflexivity.
  - intros t Ht. apply filter_In in Ht. destruct Ht as [Hin Hm].
    split; [exact Hin | exact (matches_owner regex _ _ Hm)].
  - intros Ht Hc Hs. unfold Transactions.Transaction_find.
    apply filter_ext. intros t.
    unfold Transactions.matches, build_query, when_truthy. simpl.
    rewrite Ht, Hc, Hs. simpl. now rewrite !Bool.andb_true_r.
  - intros Hv Hq.
    pose proof (rows_concat regex regex_error s uid q Hv Hq) as Hcat.
    destruct (list_rules_ranges q Hv) as (_ & Hlim).
    rewrite (list_handler_valid regex regex_error s uid q Hv Hq). cbv zeta.
    eexists. split; [reflexivity|]. simpl.
    split; [reflexivity|]. split; [|split].
    + intros t Ht. apply skip_limit_incl in Ht.
      apply (Permutation_in t (sort_docs_perm _ _)) in Ht. exact Ht.
    + intros Hp Hfit. unfold skip_limit, countDocuments in *.
      rewrite Hp. simpl. rewrite firstn_all2.
      * apply sort_docs_perm.
      * unfold Spec.sorted_matches.
        rewrite (Permutation_length (sort_docs_perm _ _)).
        fold (Transaction_find (build_query uid q) s) in Hfit. lia.
    + intros t Ht.
      apply (Permutation_in t (Permutation_sym (sort_docs_perm (sort_of q) _)))
        in Ht.
      fold (Spec.sorted_matches regex s uid q) in Ht.
      rewrite <- Hcat in Ht. apply in_concat in Ht.
      destruct Ht as (l & Hl & Hin). apply in_map_iff in Hl.
      destruct Hl as (k & <- & Hk). apply in_seq in Hk.
      exists k. split; [|exact Hin].
      unfold countDocuments. fold (Transaction_find (build_query uid q) s).
      lia.
Qed.

End DateRangeFacts.

(** ** Witnesses and a counterexample for the list route *)

Lemma date_range_filter_witness :
  (In Sample.food
      (Transactions.Transaction_find Sample.literal_regex
         (Transactions.build_query "u1" Sample.mid_january) Sample.ledger)
   <->
   In Sample.food
      (Transactions.Transaction_find Sample.literal_regex
         (Transactions.build_query "u1"
            (Transactions.without_dates Sample.mid_january)) Sample.ledger)
   /\ 1705276800000 <= Transactions.date Sample.food <= 1705708800000)
  /\ exists p,
       Transactions.list_handler Sample.literal_regex Fixtures.quantifier_first
                                 Sample.ledger "u1" Sample.mid_january
       = Transactions.mkResponse 200 true (Transactions.BPage p)
       /\ Permutation (Transactions.data p)
            (Transactions.Transaction_find Sample.literal_regex
               (Transactions.build_query "u1" Sample.mid_january)
               Sample.ledger).
Proof.
  destruct (date_range_filter Sample.literal_regex Fixtures.quantifier_first
              Sample.ledger "u1" Sample.mid_january)
    as (_ & H & _ & _ & _ & _ & _ & Hresp).
  split.
  - exact (H Sample.food 1705276800000 1705708800000 eq_refl eq_refl).
  - destruct (Hresp eq_refl eq_refl) as (p & Hp & Ht & _ & Hperm & _).
    exists p. split; [exact Hp|]. apply Hperm; [reflexivity|].
    rewrite Ht. vm_compute. discriminate.
Defined.



(* ===================================================================== *)
(** * Further properties *)
(* ===================================================================== *)

(** ** The gate: what it hands on, and when it calls out *)

Section GateFacts.

Import Auth.

Variable jwt_verify : string -> string -> option Decoded.
Variable JWT_SECRET : string.
Variable User_findById : string -> Lookup.

Local Abbreviation protect := (Auth.protect jwt_verify JWT_SECRET User_findById).

(** The four shapes a run of the gate can take. *)
Lemma protect_cases (req : Request) :
  (JS.truthy (extract_token req) = false /\
   protect req = (Rejected 401 msg_login, []))
  \/ (exists tok, extract_token req = Some tok /\ tok <> "" /\
        jwt_verify tok JWT_SECRET = None /\
        protect req = (Rejected 401 msg_invalid, [EvVerify tok]))
  \/ (exists tok d, extract_token req = Some tok /\ tok <> "" /\
        jwt_verify tok JWT_SECRET = Some d /\
        ((User_findById (id d) = Threw /\
          protect req = (Rejected 401 msg_invalid,
                         [EvVerify tok; EvFindById (id d)]))
         \/ (User_findById (id d) = Null /\
             protect req = (Rejected 401 msg_no_user,
                            [EvVerify tok; EvFindById (id d)]))
         \/ (exists u, User_findById (id d) = Doc u /\
               protect req = (Continue (select_minus_password u),
                              [EvVerify tok; EvFindById (id d); EvNext])))).
Proof.
  destruct (JS.truthy (extract_token req)) eqn:Ht.
  - destruct (extract_token req) as [tok|] eqn:E; [|discriminate].
    pose proof (proj1 (truthy_some tok) Ht) as Hne.
    pose proof (protect_with_token jwt_verify JWT_SECRET User_findById
                  req tok E Hne) as P.
    destruct (jwt_verify tok JWT_SECRET) as [d|] eqn:Hv.
    + right. right. exists tok, d. repeat split; auto.
      destruct (User_findById (id d)) as [| |u]; eauto 6.
    + right. left. exists tok. auto.
  - left. split; [reflexivity|]. now apply protect_no_token.
Qed.

(** X1: whenever the gate hands a request on, the user it attaches is
    the stored user of the verified token's subject with the password
    removed, every other field as stored. *)
Theorem protect_attaches_user_without_password
        (req : Request) (u : User) (tr : list Event) :
  protect req = (Continue u, tr) ->
  password u = None /\
  exists tok d u0,
    extract_token req = Some tok /\
    jwt_verify tok JWT_SECRET = Some d /\
    User_findById (id d) = Doc u0 /\
    _id u = _id u0 /\ name u = name u0 /\ email u = email u0 /\
    avatar u = avatar u0 /\ role u = role u0 /\ createdAt u = createdAt u0.
Proof.
  intros H.
  destruct (protect_cases req)
    as [(_ & P) | [(tok & _ & _ & _ & P)
                  | (tok & d & E & _ & Hv & [(_ & P) | [(_ & P) | (u0 & Hu & P)]])]];
    rewrite P in H; try discriminate.
  injection H as <- _. split; [reflexivity|].
  exists tok, d, u0. repeat split; assumption.
Qed.

(** X2: the continuation is called exactly when the request is handed
    on, and then once, as the last step of the run: wherever [next]
    stands in the trace nothing follows it and no other call of it
    precedes it; a refused request never reaches it. *)
Theorem next_called_iff_continue (req : Request) :
  (forall u, fst (protect req) = Continue u ->
             exists tr, snd (protect req) = (tr ++ [EvNext])%list /\
                        ~ In EvNext tr)
  /\ (forall st m, fst (protect req) = Rejected st m ->
                   ~ In EvNext (snd (protect req)))
  /\ (forall a b, snd (protect req) = (a ++ EvNext :: b)%list ->
                  b = [] /\ ~ In EvNext a /\
                  exists u, fst (protect req) = Continue u).
Proof.
  destruct (protect_cases req)
    as [(_ & P) | [(tok & _ & _ & _ & P)
                  | (tok & d & _ & _ & _ & [(_ & P) | [(_ & P) | (u0 & _ & P)]])]];
    rewrite P; simpl; (split; [|split]);
      try (intros ? ?; discriminate);
      try (intros ? ? _; intuition discriminate);
      try (intros a b E;
           destruct a as [|x1 [|x2 [|x3 [|x4 a]]]]; simpl in E;
           try discriminate E;
           injection E; intros; subst; try discriminate;
           repeat split; eauto; simpl; intuition discriminate).
  intros u _. exists [EvVerify tok; EvFindById (id d)].
  split; [reflexivity|]. simpl. intuition discriminate.
Qed.

(** X3: the user store is read only after a token was verified, and
    only for the subject of that token, once, right after the
    verification. *)
Theorem lookup_only_for_verified_subject (req : Request) (uid : string) :
  In (EvFindById uid) (snd (protect req)) ->
  exists tok d,
    extract_token req = Some tok /\
    jwt_verify tok JWT_SECRET = Some d /\
    id d = uid /\
    (snd (protect req) = [EvVerify tok; EvFindById uid] \/
     snd (protect req) = [EvVerify tok; EvFindById uid; EvNext]).
Proof.
  destruct (protect_cases req)
    as [(_ & P) | [(tok & _ & _ & _ & P)
                  | (tok & d & E & _ & Hv & [(_ & P) | [(_ & P) | (u0 & _ & P)]])]];
    rewrite P; simpl; intros H;
      repeat (destruct H as [H|H]; try discriminate);
      try contradiction;
      injection H as <-; exists tok, d; auto 6.
Qed.

End GateFacts.

Section HeaderFacts.

Import Auth.

Variable jwt_verify : string -> string -> option Decoded.
Variable JWT_SECRET : string.
Variable User_findById : string -> Lookup.

Local Abbreviation protect := (Auth.protect jwt_verify JWT_SECRET User_findById).

Lemma split_bearer (rest : string) :
  JS.split " " ("Bearer " ++ rest) = "Bearer" :: JS.split " " rest.
Proof. reflexivity. Qed.

(** X4: with no usable cookie, the header [Bearer <rest>] yields what
    stands between that first space and the next one; a [rest] without a
    space is the token as sent, and when it is not empty it is the token
    that gets verified. *)
Theorem bearer_header_yields_token (req : Request) (rest : string) :
  JS.truthy (cookies_token req) = false ->
  headers_authorization req = Some ("Bearer " ++ rest) ->
  extract_token req = JS.index (JS.split " " rest) 0
  /\ (JS.has_char " " rest = false ->
      extract_token req = Some rest /\
      (rest <> "" ->
       exists out tr, protect req = (out, EvVerify rest :: tr))).
Proof.
  intros Hc Hh.
  assert (E : extract_token req = JS.index (JS.split " " rest) 0).
  { unfold extract_token. rewrite Hc, Hh. reflexivity. }
  split; [exact E|]. intros Hs.
  rewrite (split_no_separator _ _ Hs) in E. simpl in E.
  split; [exact E|]. intros Hne.
  rewrite (protect_with_token jwt_verify JWT_SECRET User_findById
             req rest E Hne).
  destruct (jwt_verify rest JWT_SECRET) as [d|];
    [destruct (User_findById (id d))|]; eauto.
Qed.

(** X5: the role check lets a user through exactly when the user's role
    is among the roles given, answers 403 otherwise, and so refuses
    everyone when given no role. *)
Theorem authorize_iff_role_listed (roles : list string) (u : User) :
  (authorize roles u = None <-> In (role u) roles)
  /\ (~ In (role u) roles ->
      authorize roles u = Some (403, "Bạn không có quyền truy cập"))
  /\ authorize [] u <> None.
Proof.
  assert (H : existsb (String.eqb (role u)) roles = true <-> In (role u) roles).
  { rewrite existsb_exists. split.
    - intros (x & Hx & E). apply String.eqb_eq in E. now subst.
    - intros Hin. exists (role u). split; [exact Hin | apply String.eqb_refl]. }
  unfold authorize.
  split; [|split].
  - destruct (existsb (String.eqb (role u)) roles); split; intros H';
      try reflexivity; try discriminate; [now apply H | ].
    apply H in H'. discriminate.
  - intros Hn. destruct (existsb (String.eqb (role u)) roles);
      [exfalso; now apply Hn, H | reflexivity].
  - simpl. discriminate.
Qed.

End HeaderFacts.

Lemma next_called_iff_continue_witness :
  exists tr,
    snd (Auth.protect Sample.verifier "secret" Sample.users
                      (Fixtures.with_cookie "good"))
    = (tr ++ [Auth.EvNext])%list
    /\ ~ In Auth.EvNext tr.
Proof.
  exact (proj1 (next_called_iff_continue Sample.verifier "secret"
                  Sample.users (Fixtures.with_cookie "good"))
               (Auth.select_minus_password Sample.alice) eq_refl).
Defined.

Lemma protect_attaches_user_without_password_witness :
  Auth.password (Auth.select_minus_password Sample.alice) = None /\
  exists tok d u0,
    Auth.extract_token (Fixtures.with_cookie "good") = Some tok /\
    Sample.verifier tok "secret" = Some d /\
    Sample.users (Auth.id d) = Auth.Doc u0 /\
    Auth._id (Auth.select_minus_password Sample.alice) = Auth._id u0 /\
    Auth.name (Auth.select_minus_password Sample.alice) = Auth.name u0 /\
    Auth.email (Auth.select_minus_password Sample.alice) = Auth.email u0 /\
    Auth.avatar (Auth.select_minus_password Sample.alice) = Auth.avatar u0 /\
    Auth.role (Auth.select_minus_password Sample.alice) = Auth.role u0 /\
    Auth.createdAt (Auth.select_minus_password Sample.alice) = Auth.createdAt u0.
Proof.
  apply (protect_attaches_user_without_password Sample.verifier "secret"
           Sample.users (Fixtures.with_cookie "good")
           (Auth.select_minus_password Sample.alice)
           [Auth.EvVerify "good"; Auth.EvFindById "u1"; Auth.EvNext]).
  reflexivity.
Defined.

Lemma lookup_only_for_verified_subject_witness :
  exists tok d,
    Auth.extract_token (Fixtures.with_cookie "ghost") = Some tok /\
    Sample.verifier tok "secret" = Some d /\
    Auth.id d = "u0" /\
    (snd (Auth.protect Sample.verifier "secret" Sample.users
                       (Fixtures.with_cookie "ghost"))
     = [Auth.EvVerify tok; Auth.EvFindById "u0"] \/
     snd (Auth.protect Sample.verifier "secret" Sample.users
                       (Fixtures.with_cookie "ghost"))
     = [Auth.EvVerify tok; Auth.EvFindById "u0"; Auth.EvNext]).
Proof.
  apply (lookup_only_for_verified_subject Sample.verifier "secret"
           Sample.users (Fixtures.with_cookie "ghost") "u0").
  simpl. right. left. reflexivity.
Defined.

Lemma bearer_header_yields_token_witness :
  Auth.extract_token (Auth.mkRequest None (Some "Bearer good")) = Some "good".
Proof.
  destruct (bearer_header_yields_token Sample.verifier "secret" Sample.users
              (Auth.mkRequest None (Some "Bearer good")) "good"
              eq_refl eq_refl) as (_ & H).
  exact (proj1 (H eq_refl)).
Defined.

(** ** The user model: passwords and tokens *)

Section PasswordFacts.

Import UserModel.

Variable bcrypt_genSalt : Z -> string.
Variable bcrypt_hash : string -> string -> string.
Variable bcrypt_compare : string -> string -> bool.

Local Abbreviation pre_save := (UserModel.pre_save bcrypt_genSalt bcrypt_hash).
Local Abbreviation matchPassword := (UserMethods.matchPassword bcrypt_compare).

(** X6: provided [compare] accepts a password against its own hash, the
    document the hook leaves accepts, under [matchPassword], the
    password the document held when the hook started. *)
Theorem saved_password_matches (d : Document) :
  (forall p salt, bcrypt_compare p (bcrypt_hash p salt) = true) ->
  matchPassword (fst (pre_save d)) (password d) = true.
Proof.
  intros Hc. unfold UserMethods.matchPassword, UserModel.pre_save. simpl.
  apply Hc.
Qed.

(** X7: when the document already holds the hash of password [p], the
    hook hashes that hash again, and, provided [compare] accepts only
    hashes of the password entered and the hash of a hash of [p] is no
    hash of [p], the document the hook leaves no longer accepts [p]. *)
Theorem rehash_rejects_original_password
        (d : Document) (p salt : string) :
  (forall e h, bcrypt_compare e h = true -> exists s, h = bcrypt_hash e s) ->
  (forall s1 s2, bcrypt_hash (bcrypt_hash p salt) s1 <> bcrypt_hash p s2) ->
  password d = bcrypt_hash p salt ->
  matchPassword (fst (pre_save d)) p = false.
Proof.
  intros Hsound Hfresh Hd.
  unfold UserMethods.matchPassword, UserModel.pre_save. simpl. rewrite Hd.
  destruct (bcrypt_compare p
              (bcrypt_hash (bcrypt_hash p salt) (bcrypt_genSalt 10))) eqn:E;
    [|reflexivity].
  destruct (Hsound _ _ E) as [s Hs]. exfalso. exact (Hfresh _ _ Hs).
Qed.

End PasswordFacts.

Lemma saved_password_matches_witness :
  UserMethods.matchPassword Fixtures.toy_compare
    (fst (UserModel.pre_save Fixtures.toy_salt Fixtures.toy_hash
                             Fixtures.fresh_doc))
    "hunter22" = true.
Proof.
  apply (saved_password_matches Fixtures.toy_salt Fixtures.toy_hash
           Fixtures.toy_compare Fixtures.fresh_doc).
  intros p salt. unfold Fixtures.toy_compare, Fixtures.toy_hash.
  apply String.eqb_refl.
Defined.

Lemma rehash_rejects_original_password_witness :
  UserMethods.matchPassword Fixtures.toy_compare
    (fst (UserModel.pre_save Fixtures.toy_salt Fixtures.toy_hash
            (UserModel.mkDocument "#hunter22" ["name"])))
    "hunter22" = false.
Proof.
  apply (rehash_rejects_original_password Fixtures.toy_salt Fixtures.toy_hash
           Fixtures.toy_compare (UserModel.mkDocument "#hunter22" ["name"])
           "hunter22" "salt").
  - intros e h H. exists "salt". unfold Fixtures.toy_compare in H.
    apply String.eqb_eq in H. exact H.
  - intros s1 s2. discriminate.
  - reflexivity.
Defined.

Section TokenIssueFacts.

Import Auth.

Variable jwt_verify : string -> string -> option Decoded.
Variable jwt_sign : Decoded -> string -> string -> string.
Variable JWT_SECRET : string.
Variable JWT_EXPIRE : string.
Variable User_findById : string -> Lookup.

Local Abbreviation protect := (Auth.protect jwt_verify JWT_SECRET User_findById).
Local Abbreviation getSignedJwtToken :=
  (UserMethods.getSignedJwtToken jwt_sign JWT_SECRET JWT_EXPIRE).

(** X8: a request presenting the token issued for a user, which the
    verifier maps back to the payload signed, makes the gate look up
    that user's id; when the store still holds the user, the request is
    handed on with that stored user, password removed. *)
Theorem issued_token_authenticates (req : Request) (u stored : User) :
  extract_token req = Some (getSignedJwtToken u) ->
  getSignedJwtToken u <> "" ->
  jwt_verify (getSignedJwtToken u) JWT_SECRET
  = Some (mkDecoded (_id u) (email u)) ->
  User_findById (_id u) = Doc stored ->
  protect req =
    (Continue (select_minus_password stored),
     [EvVerify (getSignedJwtToken u); EvFindById (_id u); EvNext]).
Proof.
  intros E Hne Hv Hu.
  rewrite (protect_with_token jwt_verify JWT_SECRET User_findById
             req _ E Hne), Hv.
  simpl. rewrite Hu. reflexivity.
Qed.

(** X9: the same token, once the store no longer holds the user, is
    answered 401 "user does not exist"; the request is not handed on. *)
Theorem issued_token_of_removed_user (req : Request) (u : User) :
  extract_token req = Some (getSignedJwtToken u) ->
  getSignedJwtToken u <> "" ->
  jwt_verify (getSignedJwtToken u) JWT_SECRET
  = Some (mkDecoded (_id u) (email u)) ->
  User_findById (_id u) = Null ->
  protect req =
    (Rejected 401 msg_no_user,
     [EvVerify (getSignedJwtToken u); EvFindById (_id u)]).
Proof.
  intros E Hne Hv Hu.
  rewrite (protect_with_token jwt_verify JWT_SECRET User_findById
             req _ E Hne), Hv.
  simpl. rewrite Hu. reflexivity.
Qed.

End TokenIssueFacts.

Lemma issued_token_authenticates_witness :
  Auth.protect Sample.verifier "secret" Sample.users
               (Fixtures.with_cookie "good")
  = (Auth.Continue (Auth.select_minus_password Sample.alice),
     [Auth.EvVerify "good"; Auth.EvFindById "u1"; Auth.EvNext]).
Proof.
  assert (Hne : UserMethods.getSignedJwtToken Fixtures.toy_sign "secret" "30d"
                  Sample.alice <> "") by discriminate.
  exact (issued_token_authenticates Sample.verifier Fixtures.toy_sign
           "secret" "30d" Sample.users (Fixtures.with_cookie "good")
           Sample.alice Sample.alice eq_refl Hne eq_refl eq_refl).
Defined.

Lemma issued_token_of_removed_user_witness :
  Auth.protect Sample.verifier "secret" (fun _ => Auth.Null)
               (Fixtures.with_cookie "good")
  = (Auth.Rejected 401 Auth.msg_no_user,
     [Auth.EvVerify "good"; Auth.EvFindById "u1"]).
Proof.
  assert (Hne : UserMethods.getSignedJwtToken Fixtures.toy_sign "secret" "30d"
                  Sample.alice <> "") by discriminate.
  exact (issued_token_of_removed_user Sample.verifier Fixtures.toy_sign
           "secret" "30d" (fun _ => Auth.Null) (Fixtures.with_cookie "good")
           Sample.alice eq_refl Hne eq_refl eq_refl).
Defined.

(** ** Transaction routes: reading, writing and removing one's own records *)

Section StoreFacts.

Import Transactions.

Variable update_validators : UpdateBody -> option string.

Local Abbreviation put_handler := (Transactions.put_handler update_validators).

Lemma findOne_found (s : Store) (t : Transaction) :
  unique_ids s -> In t s -> findOne (_id t) (user t) s = Some t.
Proof.
  intros Hu Hin. destruct (findOne (_id t) (user t) s) as [x|] eqn:E.
  - destruct (findOne_some s _ _ x E) as (Hx & Hid & _).
    now rewrite (unique_ids_inj s x t Hu Hx Hin Hid).
  - apply (proj1 (find_none_iff _ _)) with (x := t) in E; [|exact Hin].
    cbv beta in E. now rewrite !String.eqb_refl in E.
Qed.

Lemma filter_id_absent (id : string) (s : Store) :
  ~ In id (map _id s) ->
  filter (fun x => negb (_id x =? id)%string) s = s.
Proof.
  induction s as [|a s IH]; simpl; intros H; [reflexivity|].
  destruct (String.eqb_spec (_id a) id) as [E|_]; [tauto|].
  simpl. rewrite IH; tauto.
Qed.

(** With unique ids, removal drops the one document with that id. *)
Lemma deleteOne_filter (id : string) (s : Store) :
  unique_ids s ->
  deleteOne id s = filter (fun x => negb (_id x =? id)%string) s.
Proof.
  unfold unique_ids. induction s as [|a s IH]; simpl; intros Hnd;
    [reflexivity|].
  inversion Hnd as [|? ? Hnotin Hnd']; subst.
  destruct (String.eqb_spec (_id a) id) as [E|_]; simpl.
  - subst id. now rewrite filter_id_absent.
  - now rewrite IH.
Qed.

Lemma apply_update_id (b : UpdateBody) (s : Store) (id : string) :
  map _id (map (fun x => if (_id x =? id)%string
                         then apply_update b x else x) s)
  = map _id s.
Proof.
  rewrite map_map. apply map_ext. intros x.
  destruct (_id x =? id)%string; reflexivity.
Qed.

(** What a call of the update route does to the collection. *)
Lemma put_store_cases (s : Store) (uid id : string) (b : UpdateBody) :
  unique_ids s ->
  put_handler s uid id b = (fst (put_handler s uid id b), s)
  \/ exists t,
       findOne id uid s = Some t /\ put_rules b = [] /\
       update_validators b = None /\
       put_handler s uid id b =
         (mkResponse 200 true (BData (Some msg_updated) (Some (apply_update b t))),
          map (fun x => if (_id x =? id)%string then apply_update b x else x) s).
Proof.
  intros Hu. unfold Transactions.put_handler.
  destruct (put_rules b) as [|e es] eqn:Hr; simpl; [|now left].
  destruct (findOne id uid s) as [t|] eqn:Hf; [|now left].
  destruct (update_validators b) as [e|] eqn:Hv; [now left|].
  right. exists t. destruct (findOne_some s id uid t Hf) as (Hin & Hid & _).
  subst id. rewrite (findByIdAndUpdate_spec update_validators b s t Hu Hin).
  auto.
Qed.

(** X10: in a collection with unique ids, the owner of a record reads
    exactly that record by its id. *)
Theorem owner_reads_own_record (s : Store) (t : Transaction) :
  unique_ids s -> In t s ->
  get_handler s (user t) (_id t) = Props.found t.
Proof.
  intros Hu Hin. unfold get_handler. now rewrite (findOne_found s t Hu Hin).
Qed.

(** X11: in a collection with unique ids, the owner's delete of a
    record answers 200 and removes that record and no other; afterwards
    no user finds the id, and a second delete answers NotFound and
    changes nothing. *)
Theorem delete_removes_exactly_one (s : Store) (t : Transaction) :
  unique_ids s -> In t s ->
  let s' := snd (delete_handler s (user t) (_id t)) in
  delete_handler s (user t) (_id t)
  = (mkResponse 200 true (BMessage msg_deleted),
     filter (fun x => negb (_id x =? _id t)%string) s)
  /\ (forall x, In x s' <-> In x s /\ x <> t)
  /\ S (List.length s') = List.length s
  /\ (forall uid, get_handler s' uid (_id t) = not_found)
  /\ (forall uid, delete_handler s' uid (_id t) = (not_found, s')).
Proof.
  intros Hu Hin. cbv zeta.
  assert (E : delete_handler s (user t) (_id t)
              = (mkResponse 200 true (BMessage msg_deleted),
                 filter (fun x => negb (_id x =? _id t)%string) s)).
  { unfold delete_handler. rewrite (findOne_found s t Hu Hin).
    now rewrite (deleteOne_filter _ s Hu). }
  rewrite E. simpl.
  assert (Hmem : forall x, In x (filter (fun x => negb (_id x =? _id t)%string) s)
                           <-> In x s /\ x <> t).
  { intros x. rewrite filter_In, Bool.negb_true_iff, String.eqb_neq.
    split; intros [Hx Hne]; split; auto.
    - intros ->. now apply Hne.
    - intros Hid. apply Hne. exact (unique_ids_inj s x t Hu Hx Hin Hid). }
  assert (Hnone : forall uid,
             findOne (_id t) uid
                     (filter (fun x => negb (_id x =? _id t)%string) s) = None).
  { intros uid. apply findOne_absent. apply find_none_iff. intros x Hx.
    apply filter_In in Hx. destruct Hx as [_ Hx].
    now apply Bool.negb_true_iff in Hx. }
  split; [reflexivity|]. split; [exact Hmem|]. split; [|split].
  - clear E Hmem Hnone. unfold unique_ids in Hu.
    induction s as [|a s IH]; simpl in *; [contradiction|].
    inversion Hu as [|? ? Hnotin Hnd]; subst.
    destruct (String.eqb_spec (_id a) (_id t)) as [Eid|Hne]; simpl.
    + rewrite filter_id_absent; [reflexivity|]. now rewrite <- Eid.
    + f_equal. apply IH; [exact Hnd|]. destruct Hin as [->|]; [congruence|auto].
  - intros uid. unfold get_handler. now rewrite Hnone.
  - intros uid. unfold delete_handler. now rewrite Hnone.
Qed.

Lemma put_keeps_foreign
      (s : Store) (uid id : string) (b : UpdateBody) (t : Transaction) :
  unique_ids s -> In t s -> user t <> uid ->
  In t (snd (put_handler s uid id b)).
Proof.
  intros Hu Hin Hne.
  destruct (put_store_cases s uid id b Hu) as [E | (t0 & Hf & _ & _ & E)];
    rewrite E; simpl; [exact Hin|].
  destruct (findOne_some s id uid t0 Hf) as (Hin0 & Hid0 & Hu0).
  apply in_map_iff. exists t. split; [|exact Hin].
  destruct (String.eqb_spec (_id t) id) as [Eid|]; [|reflexivity].
  exfalso. apply Hne. rewrite <- Hu0. f_equal.
  apply (unique_ids_inj s t t0 Hu Hin Hin0). congruence.
Qed.

Lemma delete_keeps_foreign
      (s : Store) (uid id : string) (t : Transaction) :
  unique_ids s -> In t s -> user t <> uid ->
  In t (snd (delete_handler s uid id)).
Proof.
  intros Hu Hin Hne.
  unfold delete_handler. destruct (findOne id uid s) as [t0|] eqn:Hf;
    simpl; [|exact Hin].
  destruct (findOne_some s id uid t0 Hf) as (Hin0 & Hid0 & Hu0).
  rewrite (deleteOne_filter _ s Hu). apply filter_In. split; [exact Hin|].
  apply Bool.negb_true_iff, String.eqb_neq. intros Eid.
  apply Hne. rewrite <- Hu0. f_equal.
  exact (unique_ids_inj s t t0 Hu Hin Hin0 Eid).
Qed.

(** X12: in a collection with unique ids, no update or delete call by
    one user, whatever the id and body, changes or removes a record owned
    by another user. *)
Theorem foreign_records_untouched
        (s : Store) (uid id : string) (b : UpdateBody) (t : Transaction) :
  unique_ids s -> In t s -> user t <> uid ->
  In t (snd (put_handler s uid id b)) /\
  In t (snd (delete_handler s uid id)).
Proof.
  intros Hu Hin Hne. split.
  - now apply put_keeps_foreign.
  - now apply delete_keeps_foreign.
Qed.

End StoreFacts.

Section UpdateCompositionFacts.

Import Transactions.

Variable update_validators : UpdateBody -> option string.

Local Abbreviation put_handler := (Transactions.put_handler update_validators).

Lemma deleteOne_ids_incl (id x : string) (s : Store) :
  In x (map _id (deleteOne id s)) -> In x (map _id s).
Proof.
  induction s as [|a s IH]; simpl; [tauto|].
  destruct (_id a =? id)%string; simpl; tauto.
Qed.

Lemma deleteOne_unique (id : string) (s : Store) :
  unique_ids s -> unique_ids (deleteOne id s).
Proof.
  unfold unique_ids. induction s as [|a s IH]; simpl; intros Hnd;
    [constructor|].
  inversion Hnd as [|? ? Hnotin Hnd']; subst.
  destruct (_id a =? id)%string; [exact Hnd'|].
  simpl. constructor; [|now apply IH].
  intros H. apply Hnotin. now apply deleteOne_ids_incl in H.
Qed.

(** X13: update and delete keep record ids unique, and an update keeps
    the ids and their order as they were. *)
Theorem handlers_keep_ids_unique
        (s : Store) (uid id : string) (b : UpdateBody) :
  unique_ids s ->
  unique_ids (snd (put_handler s uid id b))
  /\ map _id (snd (put_handler s uid id b)) = map _id s
  /\ unique_ids (snd (delete_handler s uid id)).
Proof.
  intros Hu.
  assert (Hids : map _id (snd (put_handler s uid id b)) = map _id s).
  { destruct (put_store_cases update_validators s uid id b Hu)
      as [E | (t0 & _ & _ & _ & E)]; rewrite E; simpl;
      [reflexivity | apply apply_update_id]. }
  split; [|split; [exact Hids|]].
  - unfold unique_ids. now rewrite Hids.
  - unfold delete_handler. destruct (findOne id uid s); simpl;
      [now apply deleteOne_unique | exact Hu].
Qed.

Lemma apply_update_twice (b : UpdateBody) (t : Transaction) :
  apply_update b (apply_update b t) = apply_update b t.
Proof.
  unfold apply_update. simpl.
  destruct (b_user b), (b_type b), (b_category b), (b_amount b),
    (b_description b), (b_date b), (b_createdAt b); reflexivity.
Qed.

(** X14: in a collection with unique ids, sending the same update twice
    leaves the collection as sending it once does. *)
Theorem update_twice_same_collection
        (s : Store) (uid id : string) (b : UpdateBody) :
  unique_ids s ->
  snd (put_handler (snd (put_handler s uid id b)) uid id b)
  = snd (put_handler s uid id b).
Proof.
  intros Hu.
  destruct (put_store_cases update_validators s uid id b Hu)
    as [E | (t0 & Hf & Hr & Hv & E)].
  - rewrite E. simpl. now rewrite E.
  - rewrite E. simpl.
    set (s' := map (fun x => if (_id x =? id)%string
                             then apply_update b x else x) s).
    assert (Hu' : unique_ids s').
    { unfold unique_ids, s'. now rewrite apply_update_id. }
    destruct (put_store_cases update_validators s' uid id b Hu')
      as [E' | (t1 & _ & _ & _ & E')]; rewrite E'; simpl; [reflexivity|].
    unfold s'. rewrite map_map. apply map_ext. intros x.
    destruct (String.eqb_spec (_id x) id) as [Eid|Hne]; simpl.
    + rewrite Eid, String.eqb_refl. apply apply_update_twice.
    + destruct (String.eqb_spec (_id x) id); [contradiction | reflexivity].
Qed.

Lemma apply_empty_update (b : UpdateBody) (t : Transaction) :
  b_user b = None -> b_type b = None -> b_category b = None ->
  b_amount b = None -> b_description b = None -> b_date b = None ->
  b_createdAt b = None ->
  apply_update b t = t.
Proof.
  intros H1 H2 H3 H4 H5 H6 H7. unfold apply_update.
  rewrite H1, H2, H3, H4, H5, H6, H7. destruct t; reflexivity.
Qed.

(** X15: an update whose body supplies no field, on a record the caller
    owns, answers 200 with the record as it was and leaves the
    collection as it was. *)
Theorem empty_update_changes_nothing
        (s : Store) (uid id : string) (t : Transaction) :
  unique_ids s -> findOne id uid s = Some t ->
  update_validators (mkUpdateBody None None None None None None None) = None ->
  put_handler s uid id (mkUpdateBody None None None None None None None)
  = (mkResponse 200 true (BData (Some msg_updated) (Some t)), s).
Proof.
  intros Hu Hf Hv.
  destruct (findOne_some s id uid t Hf) as (Hin & Hid & _). subst id.
  unfold Transactions.put_handler.
  change (put_rules (mkUpdateBody None None None None None None None))
    with (@nil string).
  simpl. rewrite Hf, Hv.
  rewrite (findByIdAndUpdate_spec update_validators _ s t Hu Hin).
  rewrite (apply_empty_update _ t) by reflexivity.
  f_equal. rewrite <- (map_id s) at 2. apply map_ext. intros x.
  destruct (_id x =? _id t)%string; [|reflexivity].
  now apply apply_empty_update.
Qed.

End UpdateCompositionFacts.

(** ** Transaction routes: ownership on update and on creation *)

Section OwnerFacts.

Import Transactions.
Import Routes.

Variable update_validators : UpdateBody -> option string.
Variable new_id : Store -> string.
Variable now : Z.
Variable create_validators : CreateBody -> option string.

Local Abbreviation put_handler := (Transactions.put_handler update_validators).
Local Abbreviation post_handler :=
  (Routes.post_handler new_id now create_validators).

Lemma put_success (s : Store) (uid id : string) (b : UpdateBody)
      (t : Transaction) :
  unique_ids s -> findOne id uid s = Some t ->
  put_rules b = [] -> update_validators b = None ->
  put_handler s uid id b =
    (mkResponse 200 true (BData (Some msg_updated) (Some (apply_update b t))),
     map (fun x => if (_id x =? id)%string then apply_update b x else x) s).
Proof.
  intros Hu Hf Hr Hv.
  destruct (findOne_some s id uid t Hf) as (Hin & Hid & _). subst id.
  unfold Transactions.put_handler. rewrite Hr, Hf, Hv.
  now rewrite (findByIdAndUpdate_spec update_validators b s t Hu Hin).
Qed.

(** X16: the update route takes the owner from the body like any other
    field: when the owner of a record sends an update naming another
    user, the record passes to that user; the former owner's read of the
    id then answers NotFound and the new owner's read returns it. *)
Theorem update_can_reassign_owner
        (s : Store) (A B id : string) (b : UpdateBody) (t : Transaction) :
  unique_ids s -> findOne id A s = Some t ->
  put_rules b = [] -> update_validators b = None ->
  b_user b = Some B -> A <> B ->
  user (apply_update b t) = B
  /\ In (apply_update b t) (snd (put_handler s A id b))
  /\ get_handler (snd (put_handler s A id b)) A id = not_found
  /\ get_handler (snd (put_handler s A id b)) B id
     = Props.found (apply_update b t).
Proof.
  intros Hu Hf Hr Hv Hb Hne.
  rewrite (put_success s A id b t Hu Hf Hr Hv). simpl.
  destruct (findOne_some s id A t Hf) as (Hin & Hid & _). subst id.
  set (s' := map (fun x => if (_id x =? _id t)%string
                           then apply_update b x else x) s).
  assert (Hu' : unique_ids s').
  { unfold unique_ids, s'. now rewrite apply_update_id. }
  assert (Hin' : In (apply_update b t) s').
  { unfold s'. apply in_map_iff. exists t. now rewrite String.eqb_refl. }
  assert (HB : user (apply_update b t) = B) by (simpl; now rewrite Hb).
  split; [exact HB|]. split; [exact Hin'|]. split.
  - unfold get_handler.
    change (_id t) with (_id (apply_update b t)).
    rewrite (findOne_other_owner s' (apply_update b t) A Hu' Hin');
      [reflexivity | congruence].
  - unfold get_handler.
    pose proof (findOne_found s' (apply_update b t) Hu' Hin') as F.
    rewrite HB in F. simpl in F. now rewrite F.
Qed.

Lemma required_some {A : Type} (check : A -> bool) (v : option A) :
  required check v = true -> exists a, v = Some a /\ check a = true.
Proof. destruct v as [a|]; simpl; [eauto | discriminate]. Qed.

Lemma isIn_kinds (ty : string) :
  isIn ["thu"; "chi"] ty = true -> ty = "thu" \/ ty = "chi".
Proof.
  unfold isIn. simpl.
  destruct (String.eqb_spec ty "thu"); [auto|].
  destruct (String.eqb_spec ty "chi"); [auto | discriminate].
Qed.

(** What a body that passes the create chains holds. *)
Lemma post_rules_fields (b : CreateBody) :
  post_rules b = [] ->
  exists ty c a d dt,
    c_type b = Some ty /\ c_category b = Some c /\ c_amount b = Some a /\
    c_description b = Some d /\ c_date b = Some dt /\
    (ty = "thu" \/ ty = "chi") /\ c <> "" /\ (1 # 100 <= a)%Q /\ d <> "".
Proof.
  unfold post_rules. intros H.
  apply app_eq_nil in H. destruct H as [H1 H].
  apply app_eq_nil in H. destruct H as [H2 H].
  apply app_eq_nil in H. destruct H as [H3 H].
  apply app_eq_nil in H. destruct H as [H4 H5].
  apply rule_nil in H1, H2, H3, H4, H5.
  apply required_some in H1, H2, H3, H4.
  destruct H1 as (ty & E1 & C1), H2 as (c & E2 & C2),
           H3 as (a & E3 & C3), H4 as (d & E4 & C4).
  destruct (c_date b) as [dt|] eqn:E5; [|discriminate].
  exists ty, c, a, d, dt. repeat split; auto.
  - now apply isIn_kinds.
  - unfold notEmpty in C2. apply Bool.negb_true_iff in C2.
    now apply String.eqb_neq.
  - now apply Qle_bool_iff.
  - unfold notEmpty in C4. apply Bool.negb_true_iff in C4.
    now apply String.eqb_neq.
Qed.

Lemma post_success (s : Store) (uid : string) (b : CreateBody)
      (ty c : string) (a : Q) (d : string) (dt : Z) :
  post_rules b = [] -> create_validators (set_user uid b) = None ->
  c_type b = Some ty -> c_category b = Some c -> c_amount b = Some a ->
  c_description b = Some d -> c_date b = Some dt ->
  post_handler s uid b =
    (mkResponse 201 true
       (BData (Some msg_created)
          (Some (mkTransaction (new_id s) uid ty c a d dt
                               (or_old (c_createdAt b) now)))),
     (s ++ [mkTransaction (new_id s) uid ty c a d dt
                          (or_old (c_createdAt b) now)])%list).
Proof.
  intros Hr Hv E1 E2 E3 E4 E5.
  unfold Routes.post_handler, Transaction_create, document_of.
  rewrite Hr, Hv. simpl. rewrite E1, E2, E3, E4, E5. reflexivity.
Qed.

(** X17: a create call whose body passes the route's chains and the
    schema's validators answers 201 and appends one record, owned by the
    caller whatever owner the body names, carrying the body's kind,
    category, amount, description and date under the id the store
    issued. *)
Theorem create_pins_owner (s : Store) (uid : string) (b : CreateBody) :
  post_rules b = [] -> create_validators (set_user uid b) = None ->
  exists t,
    post_handler s uid b =
      (mkResponse 201 true (BData (Some msg_created) (Some t)), (s ++ [t])%list)
    /\ user t = uid /\ _id t = new_id s
    /\ c_type b = Some (type t) /\ c_category b = Some (category t)
    /\ c_amount b = Some (amount t) /\ c_description b = Some (description t)
    /\ c_date b = Some (date t)
    /\ createdAt t = or_old (c_createdAt b) now.
Proof.
  intros Hr Hv.
  destruct (post_rules_fields b Hr)
    as (ty & c & a & d & dt & E1 & E2 & E3 & E4 & E5 & _).
  exists (mkTransaction (new_id s) uid ty c a d dt (or_old (c_createdAt b) now)).
  split; [now apply post_success|].
  simpl. repeat split; assumption.
Qed.

(** X18: when the id the store issues is not yet in use, the created
    record can be read back by its creator under that id, no other user
    can read it, ids stay unique, and every earlier record is still
    there. *)
Theorem create_then_read (s : Store) (uid : string) (b : CreateBody) :
  unique_ids s -> findById (new_id s) s = None ->
  post_rules b = [] -> create_validators (set_user uid b) = None ->
  exists t,
    snd (post_handler s uid b) = (s ++ [t])%list
    /\ unique_ids (snd (post_handler s uid b))
    /\ get_handler (snd (post_handler s uid b)) uid (_id t) = Props.found t
    /\ (forall other, other <> uid ->
          get_handler (snd (post_handler s uid b)) other (_id t) = not_found)
    /\ (forall x, In x s -> In x (snd (post_handler s uid b))).
Proof.
  intros Hu Hfresh Hr Hv.
  destruct (post_rules_fields b Hr)
    as (ty & c & a & d & dt & E1 & E2 & E3 & E4 & E5 & _).
  rewrite (post_success s uid b ty c a d dt Hr Hv E1 E2 E3 E4 E5). simpl.
  set (t := mkTransaction (new_id s) uid ty c a d dt
                          (or_old (c_createdAt b) now)).
  exists t.
  assert (Hu' : unique_ids (s ++ [t])%list).
  { unfold unique_ids in *. rewrite map_app. simpl.
    apply Permutation_NoDup with (l := new_id s :: map _id s).
    - apply Permutation_cons_append.
    - constructor; [|exact Hu]. intros Hin. apply in_map_iff in Hin.
      destruct Hin as (x & Hx & Hin).
      apply (proj1 (find_none_iff _ _) Hfresh) in Hin. cbv beta in Hin.
      rewrite Hx, String.eqb_refl in Hin. discriminate. }
  assert (Hin : In t (s ++ [t])%list) by (apply in_or_app; right; now left).
  split; [reflexivity|]. split; [exact Hu'|]. split; [|split].
  - unfold get_handler.
    pose proof (findOne_found (s ++ [t])%list t Hu' Hin) as F.
    simpl in F. simpl. now rewrite F.
  - intros other Hne. unfold get_handler.
    pose proof (findOne_other_owner (s ++ [t])%list t other Hu' Hin) as F.
    simpl in F. simpl. rewrite F; [reflexivity | congruence].
  - intros x Hx. apply in_or_app. now left.
Qed.

End OwnerFacts.

(** ** Transaction routes: what validation keeps true of the collection *)

Section InvariantFacts.

Import Transactions.
Import Routes.

Variable update_validators : UpdateBody -> option string.
Variable new_id : Store -> string.
Variable now : Z.
Variable create_validators : CreateBody -> option string.

Local Abbreviation put_handler := (Transactions.put_handler update_validators).
Local Abbreviation post_handler :=
  (Routes.post_handler new_id now create_validators).

Lemma put_rules_fields (b : UpdateBody) :
  put_rules b = [] ->
  (forall ty, b_type b = Some ty -> ty = "thu" \/ ty = "chi") /\
  (forall a, b_amount b = Some a -> (1 # 100 <= a)%Q).
Proof.
  unfold put_rules. intros H.
  apply app_eq_nil in H. destruct H as [H1 H2].
  apply rule_nil in H1, H2. split.
  - intros ty E. rewrite E in H1. now apply isIn_kinds.
  - intros a E. rewrite E in H2. now apply Qle_bool_iff.
Qed.

Lemma apply_update_keeps_valid (b : UpdateBody) (t : Transaction) :
  put_rules b = [] -> Props.kind_amount_ok t ->
  Props.kind_amount_ok (apply_update b t).
Proof.
  intros Hr [Hk Ha]. destruct (put_rules_fields b Hr) as [Fk Fa].
  unfold Props.kind_amount_ok. simpl. split.
  - destruct (b_type b) as [ty|]; simpl; [now apply Fk | exact Hk].
  - destruct (b_amount b) as [a|]; simpl; [now apply Fa | exact Ha].
Qed.

(** X19: if every record's kind is one of the two kinds and every
    amount is at least 0.01, the same holds of the collection after any
    create, update or delete call, whatever its arguments. *)
Theorem kind_and_amount_stay_valid
        (s : Store) (uid id : string) (b : UpdateBody) (cb : CreateBody) :
  unique_ids s -> Forall Props.kind_amount_ok s ->
  Forall Props.kind_amount_ok (snd (post_handler s uid cb))
  /\ Forall Props.kind_amount_ok (snd (put_handler s uid id b))
  /\ Forall Props.kind_amount_ok (snd (delete_handler s uid id)).
Proof.
  intros Hu Hs. split; [|split].
  - unfold Routes.post_handler.
    destruct (post_rules cb) as [|e es] eqn:Hr; simpl; [|exact Hs].
    destruct (post_rules_fields cb Hr)
      as (ty & c & a & d & dt & E1 & E2 & E3 & E4 & E5 & Hk & _ & Ha & _).
    unfold Transaction_create, document_of.
    destruct (create_validators (set_user uid cb)); simpl; [exact Hs|].
    rewrite E1, E2, E3, E4, E5. simpl.
    apply Forall_app. split; [exact Hs|].
    constructor; [|constructor]. split; assumption.
  - destruct (put_store_cases update_validators s uid id b Hu)
      as [E | (t0 & _ & Hr & _ & E)]; rewrite E; simpl; [exact Hs|].
    apply Forall_map. revert Hs. apply Forall_impl. intros x Hx.
    destruct (_id x =? id)%string; [|exact Hx].
    now apply apply_update_keeps_valid.
  - unfold delete_handler. destruct (findOne id uid s); simpl; [|exact Hs].
    rewrite (deleteOne_filter _ s Hu).
    apply Forall_forall. intros x Hx. apply filter_In in Hx.
    rewrite Forall_forall in Hs. now apply Hs.
Qed.

(** X20: a create call whose body fails one of the route's chains is
    answered 400 with the failing fields and adds nothing; in
    particular a body without kind, or with a kind other than the two,
    or with an amount under 0.01, never becomes a record. *)
Theorem invalid_create_adds_nothing (s : Store) (uid : string) (cb : CreateBody) :
  (post_rules cb <> [] ->
   post_handler s uid cb = (validation_failed (post_rules cb), s))
  /\ (c_type cb = None -> In "type" (post_rules cb))
  /\ (forall ty, c_type cb = Some ty -> ty <> "thu" -> ty <> "chi" ->
                 In "type" (post_rules cb))
  /\ (forall a, c_amount cb = Some a -> (a < 1 # 100)%Q ->
                In "amount" (post_rules cb))
  /\ (forall t s', post_handler s uid cb
                   = (mkResponse 201 true (BData (Some msg_created) (Some t)), s')
                   -> post_rules cb = []).
Proof.
  split; [|split; [|split; [|split]]].
  - intros Hne. unfold Routes.post_handler.
    destruct (post_rules cb); [contradiction | reflexivity].
  - intros E. unfold post_rules. rewrite E. simpl. now left.
  - intros ty E H1 H2. unfold post_rules. rewrite E. simpl.
    apply String.eqb_neq in H1, H2. unfold isIn. simpl.
    rewrite H1, H2. simpl. now left.
  - intros a E Hlt. unfold post_rules. rewrite E.
    apply in_or_app. right. apply in_or_app. right. apply in_or_app. left.
    simpl. destruct (Qle_bool (1 # 100) a) eqn:Hq; [|now left].
    apply Qle_bool_iff in Hq. exfalso. exact (Qlt_not_le _ _ Hlt Hq).
  - intros t s' H. unfold Routes.post_handler in H.
    destruct (post_rules cb); [reflexivity | discriminate].
Qed.

End InvariantFacts.

(** ** Transaction routes: the rows of a list response *)

Section RowFacts.

Import Transactions.

Variable regex : string -> string -> string -> bool.
Variable regex_error : string -> string -> option string.

Local Abbreviation list_handler :=
  (Transactions.list_handler regex regex_error).
Local Abbreviation query_error := (Transactions.query_error regex_error).
Local Abbreviation Transaction_find := (Transactions.Transaction_find regex).
Local Abbreviation sorted_matches := (Spec.sorted_matches regex).

Lemma rows_valid (s : Store) (uid : string) (q : ListQuery) :
  list_rules q = [] -> query_error (build_query uid q) = None ->
  rows (list_handler s uid q)
  = skip_limit ((page_of q - 1) * limit_of q) (limit_of q)
               (sorted_matches s uid q).
Proof.
  intros H E. now rewrite (list_handler_valid regex regex_error s uid q H E).
Qed.

(** A response that is not a page carries no rows; a page carries the
    rows of the valid case. *)
Lemma rows_cases (s : Store) (uid : string) (q : ListQuery) :
  rows (list_handler s uid q) = []
  \/ (list_rules q = [] /\ query_error (build_query uid q) = None /\
      rows (list_handler s uid q)
      = skip_limit ((page_of q - 1) * limit_of q) (limit_of q)
                   (sorted_matches s uid q)).
Proof.
  destruct (list_rules q) as [|e es] eqn:Hv.
  - destruct (query_error (build_query uid q)) as [e|] eqn:Hq.
    + left. now rewrite (list_handler_throws regex regex_error s uid q e Hv Hq).
    + right. repeat split. now apply rows_valid.
  - left. unfold Transactions.list_handler. now rewrite Hv.
Qed.

Lemma list_rows_owned_aux (s : Store) (uid : string) (q : ListQuery)
      (t : Transaction) :
  In t (rows (list_handler s uid q)) -> In t s /\ user t = uid.
Proof.
  destruct (rows_cases s uid q) as [E | (_ & _ & E)]; rewrite E.
  - contradiction.
  - intros H. apply skip_limit_incl in H.
    apply (Permutation_in t (sort_docs_perm _ _)) in H.
    apply filter_In in H. destruct H as [Hin Hm].
    split; [exact Hin | exact (matches_owner regex _ _ Hm)].
Qed.

(** X21: every row of a list response is a record of the collection
    owned by the caller, whatever the request; so a record owned by
    someone else is in no list response of the caller. *)
Theorem list_rows_are_owned (s : Store) (uid : string) (q : ListQuery) :
  (forall t, In t (rows (list_handler s uid q)) -> In t s /\ user t = uid)
  /\ (forall t, user t <> uid -> ~ In t (rows (list_handler s uid q))).
Proof.
  split.
  - intros t. apply list_rows_owned_aux.
  - intros t Hne Hin. apply list_rows_owned_aux in Hin. tauto.
Qed.

(** *** Order *)

Section Sorting.

Variable le : Transaction -> Transaction -> bool.
Hypothesis le_total : forall a b, le a b = false -> le b a = true.
Hypothesis le_trans : forall a b c, le a b = true -> le b c = true -> le a c = true.

Lemma insert_by_sorted (x : Transaction) (l : list Transaction) :
  StronglySorted (fun a b => le a b = true) l ->
  StronglySorted (fun a b => le a b = true) (insert_by le x l).
Proof.
  induction l as [|y r IH]; simpl; intros Hs.
  - repeat constructor.
  - apply StronglySorted_inv in Hs. destruct Hs as [Hr Hy].
    destruct (le x y) eqn:E.
    + constructor; [now constructor|].
      constructor; [exact E|]. revert Hy. apply Forall_impl. eauto.
    + constructor; [now apply IH|].
      eapply Permutation_Forall;
        [apply Permutation_sym, insert_by_perm|].
      constructor; [now apply le_total | exact Hy].
Qed.

Lemma sort_by_sorted (l : list Transaction) :
  StronglySorted (fun a b => le a b = true) (sort_by le l).
Proof.
  induction l as [|x r IH]; simpl; [constructor | now apply insert_by_sorted].
Qed.

End Sorting.

Lemma StronglySorted_impl {A : Type} (R R' : A -> A -> Prop) (l : list A) :
  (forall a b, R a b -> R' a b) -> StronglySorted R l -> StronglySorted R' l.
Proof.
  intros H. induction 1 as [|a l Hs IH Hf]; constructor; [exact IH|].
  revert Hf. apply Forall_impl. auto.
Qed.



Lemma Qle_bool_total (a b : Q) : Qle_bool a b = false -> Qle_bool b a = true.
Proof.
  intros H. apply Qle_bool_iff. apply Qlt_le_weak. apply Qnot_le_lt.
  intros Hle. apply Qle_bool_iff in Hle. congruence.
Qed.

Lemma Qle_bool_trans (a b c : Q) :
  Qle_bool a b = true -> Qle_bool b c = true -> Qle_bool a c = true.
Proof.
  rewrite !Qle_bool_iff. apply Qle_trans.
Qed.

Lemma sort_docs_sorted (key : string) (l : list Transaction) :
  In key ["date"; "-date"; "amount"; "-amount"] ->
  StronglySorted (Props.ordered_by key) (sort_docs key l).
Proof.
  intros Hk. unfold sort_docs, Props.ordered_by.
  destruct (String.eqb_spec key "date");
    [|destruct (String.eqb_spec key "-date");
      [|destruct (String.eqb_spec key "amount");
        [|destruct (String.eqb_spec key "-amount")]]].
  - apply (StronglySorted_impl (fun a b => (date a <=? date b) = true)).
    + intros a b. apply Z.leb_le.
    + apply sort_by_sorted; intros; rewrite ?Z.leb_le, ?Z.leb_gt in *; lia.
  - apply (StronglySorted_impl (fun a b => (date b <=? date a) = true)).
    + intros a b. apply Z.leb_le.
    + apply sort_by_sorted; intros; rewrite ?Z.leb_le, ?Z.leb_gt in *; lia.
  - apply (StronglySorted_impl
             (fun a b => Qle_bool (amount a) (amount b) = true)).
    + intros a b. apply Qle_bool_iff.
    + apply sort_by_sorted; intros; eauto using Qle_bool_total, Qle_bool_trans.
  - apply (StronglySorted_impl
             (fun a b => Qle_bool (amount b) (amount a) = true)).
    + intros a b. apply Qle_bool_iff.
    + apply sort_by_sorted; intros; eauto using Qle_bool_total, Qle_bool_trans.
  - simpl in Hk. intuition congruence.
Qed.

Lemma list_rules_sort_key (q : ListQuery) :
  list_rules q = [] ->
  In (sort_of q) ["date"; "-date"; "amount"; "-amount"].
Proof.
  unfold list_rules. intros H.
  apply app_eq_nil in H. destruct H as [_ H].
  apply app_eq_nil in H. destruct H as [_ H].
  apply app_eq_nil in H. destruct H as [_ H].
  apply rule_nil in H. unfold sort_of, JS.or_else.
  destruct (q_sort q) as [k|]; [|simpl; auto].
  destruct (String.eqb_spec k ""); [simpl; auto|].
  unfold optional, isIn in H. apply existsb_exists in H.
  destruct H as (x & Hx & E). apply String.eqb_eq in E. now subst.
Qed.


End RowFacts.

(** ** Transaction routes: paging through the sorted selection *)

Section PaginationFacts.

Import Transactions.

Variable regex : string -> string -> string -> bool.
Variable regex_error : string -> string -> option string.

Local Abbreviation list_handler :=
  (Transactions.list_handler regex regex_error).
Local Abbreviation query_error := (Transactions.query_error regex_error).
Local Abbreviation Transaction_find := (Transactions.Transaction_find regex).
Local Abbreviation sorted_matches := (Spec.sorted_matches regex).

(** C4: on a request that passes validation and whose query the store
    accepts, the handler pages after filtering and sorting: the filtered
    set is put in the order of the sort key (descending date when none
    is given), then (page - 1) x limit rows are skipped and limit rows
    taken, page defaulting to 1 and limit to 10; [total] counts the whole
    filtered set; [pages] is the ceiling of total over limit; and the
    rows of pages 1 .. pages, one after the other, are the full sorted
    filtered set, which is a rearrangement of the filtered set and has no
    repeats when record ids are unique. *)
Theorem list_pagination (s : Store) (uid : string) (q : ListQuery) :
  list_rules q = [] -> query_error (build_query uid q) = None ->
  exists p,
    list_handler s uid q = mkResponse 200 true (BPage p)
    /\ page p = page_of q /\ (q_page q = None -> page p = 1)
    /\ (q_limit q = None -> limit_of q = 10)
    /\ data p = firstn (Z.to_nat (limit_of q))
                  (skipn (Z.to_nat ((page p - 1) * limit_of q))
                         (sorted_matches s uid q))
    /\ count p = Z.of_nat (List.length (data p))
    /\ total p = Z.of_nat (List.length (Transaction_find (build_query uid q) s))
    /\ pages p = ceil_div (total p) (limit_of q)
    /\ total p <= pages p * limit_of q < total p + limit_of q
    /\ List.concat
         (map (fun k => rows (list_handler s uid (at_page q (Z.of_nat k))))
              (seq 1 (Z.to_nat (pages p))))
       = sorted_matches s uid q
    /\ Permutation (sorted_matches s uid q)
                   (Transaction_find (build_query uid q) s)
    /\ StronglySorted (Props.ordered_by (sort_of q)) (sorted_matches s uid q)
    /\ (q_sort q = None -> sort_of q = "-date")
    /\ (unique_ids s -> NoDup (sorted_matches s uid q)).
Proof.
  intros Hv Hq. destruct (list_rules_ranges q Hv) as (Hpage & Hlim).
  assert (Hperm : Permutation (sorted_matches s uid q)
                              (Transaction_find (build_query uid q) s))
    by apply sort_docs_perm.
  pose proof (rows_concat regex regex_error s uid q Hv Hq) as Hcat.
  rewrite (list_handler_valid regex regex_error s uid q Hv Hq). cbv zeta.
  eexists. split; [reflexivity|]. simpl.
  split; [reflexivity|].
  split; [intros E; unfold page_of; rewrite E; reflexivity|].
  split; [intros E; unfold limit_of; rewrite E; reflexivity|].
  split; [reflexivity|]. split; [reflexivity|]. split; [reflexivity|].
  split; [reflexivity|].
  split; [apply ceil_div_bounds; lia|].
  split; [exact Hcat|].
  split; [exact Hperm|].
  split; [apply (sort_docs_sorted regex regex_error);
          now apply list_rules_sort_key|].
  split; [intros E; unfold sort_of; rewrite E; reflexivity|].
  intros Hu. apply (Permutation_NoDup (Permutation_sym Hperm)).
  apply NoDup_filter. exact (NoDup_map_inv _ _ Hu).
Qed.

End PaginationFacts.

Lemma list_pagination_witness :
  exists p,
    Transactions.list_handler Sample.literal_regex Fixtures.quantifier_first
                              Sample.ledger "u1" Sample.one_per_page
    = Transactions.mkResponse 200 true (Transactions.BPage p)
    /\ Transactions.data p = [Sample.food]
    /\ Transactions.pages p = 2
    /\ List.concat
         (map (fun k => Transactions.rows
                          (Transactions.list_handler Sample.literal_regex
                             Fixtures.quantifier_first Sample.ledger "u1"
                             (Transactions.at_page Sample.one_per_page
                                                   (Z.of_nat k))))
              (seq 1 (Z.to_nat (Transactions.pages p))))
       = [Sample.food; Sample.salary]
    /\ StronglySorted (Props.ordered_by "-date") [Sample.food; Sample.salary].
Proof.
  destruct (list_pagination Sample.literal_regex Fixtures.quantifier_first
              Sample.ledger "u1" Sample.one_per_page eq_refl eq_refl)
    as (p & Hr & Hpg & _ & _ & Hd & _ & Ht & Hp & _ & Hc & _ & Hs & _).
  exists p. split; [exact Hr|]. split; [rewrite Hpg in Hd; exact Hd|].
  assert (Hp2 : Transactions.pages p = 2) by (rewrite Hp, Ht; reflexivity).
  split; [exact Hp2|]. split; [rewrite Hc; reflexivity | exact Hs].
Defined.

Section PageFacts.

Import Transactions.

Variable regex : string -> string -> string -> bool.
Variable regex_error : string -> string -> option string.

Local Abbreviation list_handler :=
  (Transactions.list_handler regex regex_error).
Local Abbreviation query_error := (Transactions.query_error regex_error).
Local Abbreviation Transaction_find := (Transactions.Transaction_find regex).
Local Abbreviation sorted_matches := (Spec.sorted_matches regex).

Lemma rows_length (s : Store) (uid : string) (q : ListQuery) :
  list_rules q = [] -> query_error (build_query uid q) = None ->
  List.length (rows (list_handler s uid q))
  = Nat.min (Z.to_nat (limit_of q))
            (List.length (Transaction_find (build_query uid q) s)
             - Z.to_nat ((page_of q - 1) * limit_of q)).
Proof.
  intros Hv Hq. rewrite (rows_valid regex regex_error s uid q Hv Hq).
  unfold skip_limit.
  rewrite length_firstn, length_skipn. unfold Spec.sorted_matches.
  now rewrite (Permutation_length (sort_docs_perm _ _)).
Qed.

(** X23: a list response never carries more than 100 rows.  On a
    request that passes validation the answer is either a page or, when
    the store refuses the search pattern, the 500 answer of the catch
    branch with the store's message and no rows; on a page [count] is
    the number of rows, at most the page size and at most [total]. *)
Theorem list_count_bounds (s : Store) (uid : string) (q : ListQuery) :
  (List.length (rows (list_handler s uid q)) <= 100)%nat
  /\ (list_rules q = [] -> query_error (build_query uid q) = None ->
      exists p, body (list_handler s uid q) = BPage p /\
                status (list_handler s uid q) = 200 /\
                count p = Z.of_nat (List.length (rows (list_handler s uid q))) /\
                0 <= count p <= limit_of q /\ limit_of q <= 100 /\
                count p <= total p)
  /\ (forall e, list_rules q = [] ->
                query_error (build_query uid q) = Some e ->
                list_handler s uid q
                = mkResponse 500 false (BFailure msg_list_failed e)).
Proof.
  split; [|split].
  - destruct (rows_cases regex regex_error s uid q) as [E | (Hv & Hq & _)].
    + rewrite E. simpl. lia.
    + rewrite (rows_length s uid q Hv Hq).
      destruct (list_rules_ranges q Hv) as (_ & Hl). lia.
  - intros Hv Hq. pose proof (rows_length s uid q Hv Hq) as Hlen.
    rewrite (rows_valid regex regex_error s uid q Hv Hq) in Hlen.
    destruct (list_rules_ranges q Hv) as (_ & Hl).
    rewrite (list_handler_valid regex regex_error s uid q Hv Hq). cbv zeta.
    eexists. split; [reflexivity|]. simpl.
    split; [reflexivity|]. split; [reflexivity|]. unfold countDocuments.
    fold (Transaction_find (build_query uid q) s). lia.
  - intros e Hv Hq. now apply list_handler_throws.
Qed.

(** X24: on a request that passes validation and whose query the store
    accepts, the page is empty exactly when the rows skipped to reach it
    are at least as many as [total]; [total] and [pages] are reported
    all the same. *)
Theorem page_empty_iff_past_end (s : Store) (uid : string) (q : ListQuery) :
  list_rules q = [] -> query_error (build_query uid q) = None ->
  exists p,
    list_handler s uid q = mkResponse 200 true (BPage p)
    /\ (data p = [] <-> total p <= (page_of q - 1) * limit_of q)
    /\ total p = Z.of_nat (List.length (Transaction_find (build_query uid q) s))
    /\ pages p = ceil_div (total p) (limit_of q).
Proof.
  intros Hv Hq. pose proof (rows_length s uid q Hv Hq) as Hlen.
  rewrite (rows_valid regex regex_error s uid q Hv Hq) in Hlen.
  destruct (list_rules_ranges q Hv) as (Hp & Hl).
  rewrite (list_handler_valid regex regex_error s uid q Hv Hq). cbv zeta.
  eexists. split; [reflexivity|]. simpl.
  split; [|split; reflexivity].
  unfold countDocuments. fold (Transaction_find (build_query uid q) s).
  rewrite <- length_zero_iff_nil, Hlen. nia.
Qed.

(** X25: a category or search parameter that is present but empty is
    ignored: the response is the one the request gets without it. *)
Theorem empty_filter_is_ignored (s : Store) (uid : string) (q : ListQuery) :
  (q_category q = Some "" ->
   list_handler s uid q = list_handler s uid (without_category q))
  /\ (q_search q = Some "" ->
      list_handler s uid q = list_handler s uid (Props.without_search q)).
Proof.
  split; intros E; unfold Transactions.list_handler.
  - replace (build_query uid q) with (build_query uid (without_category q));
      [reflexivity|].
    unfold build_query. simpl. rewrite E. reflexivity.
  - replace (build_query uid q) with (build_query uid (Props.without_search q));
      [reflexivity|].
    unfold build_query. simpl. rewrite E. reflexivity.
Qed.

End PageFacts.

Section SelectionFacts.

Import Transactions.

Variable regex : string -> string -> string -> bool.

Local Abbreviation Transaction_find := (Transactions.Transaction_find regex).

(** X26: the set a list request selects, read off the request: a record
    is selected exactly when it is in the collection, owned by the
    caller, of the kind asked for, of the category asked for, within the
    date bounds given, and with the search text matching its description
    or its category, each condition applying only when the parameter is
    present and not empty. *)
Theorem selected_iff_all_filters_pass
        (s : Store) (uid : string) (q : ListQuery) (t : Transaction) :
  In t (Transaction_find (build_query uid q) s) <->
  In t s /\ user t = uid
  /\ (forall ty, Props.given (q_type q) ty -> type t = ty)
  /\ (forall c, Props.given (q_category q) c -> category t = c)
  /\ (forall d1, q_startDate q = Some d1 -> d1 <= date t)
  /\ (forall d2, q_endDate q = Some d2 -> date t <= d2)
  /\ (forall x, Props.given (q_search q) x ->
                regex x "i" (description t) = true \/
                regex x "i" (category t) = true).
Proof.
  unfold Transactions.Transaction_find. rewrite filter_In.
  unfold Transactions.matches, build_query, when_truthy, Props.given. simpl.
  rewrite !Bool.andb_true_iff, String.eqb_eq.
  assert (Hstr : forall (v : option string) (P : string -> Prop) (f : string -> bool),
             (forall x, f x = true <-> P x) ->
             (opt_test (if JS.truthy v then v else None) f = true <->
              forall x, v = Some x /\ x <> "" -> P x)).
  { intros v P f Hf. destruct v as [x|]; simpl.
    - destruct (String.eqb_spec x ""); simpl.
      + split; [|reflexivity]. intros _ y [Hy Hne]. congruence.
      + rewrite Hf. split.
        * intros HP y [Hy _]. congruence.
        * intros H. apply H. auto.
    - split; [|reflexivity]. intros _ y [Hy _]. discriminate. }
  rewrite (Hstr (q_type q) (fun ty => type t = ty))
    by (intros; apply String.eqb_eq).
  rewrite (Hstr (q_category q) (fun c => category t = c))
    by (intros; apply String.eqb_eq).
  rewrite (Hstr (q_search q)
             (fun x => regex x "i" (description t) = true \/
                       regex x "i" (category t) = true))
    by (intros; apply Bool.orb_true_iff).
  assert (Hd : opt_test
                 (if present (q_startDate q) || present (q_endDate q)
                  then Some (mkDateCond (q_startDate q) (q_endDate q))
                  else None)
                 (fun d => opt_test (gte d) (fun a => a <=? date t)
                           && opt_test (lte d) (fun b => date t <=? b)) = true
               <-> (forall d1, q_startDate q = Some d1 -> d1 <= date t) /\
                   (forall d2, q_endDate q = Some d2 -> date t <= d2)).
  { destruct (q_startDate q) as [a|], (q_endDate q) as [b|]; simpl;
      rewrite ?Bool.andb_true_iff, ?Z.leb_le; split;
        try (intros [H1 H2]); try (intros H1);
        repeat split; intros; try congruence; try discriminate;
        try (injection H as <-; assumption); auto. }
  rewrite Hd. tauto.
Qed.

End SelectionFacts.

(** ** The routes behind the gate *)

Section RouterFacts.

Import Transactions.
Import Routes.

Variable jwt_verify : string -> string -> option Auth.Decoded.
Variable JWT_SECRET : string.
Variable User_findById : string -> Auth.Lookup.
Variable regex : string -> string -> string -> bool.
Variable regex_error : string -> string -> option string.
Variable update_validators : UpdateBody -> option string.
Variable new_id : Store -> string.
Variable now : Z.
Variable create_validators : CreateBody -> option string.

Local Abbreviation protect := (Auth.protect jwt_verify JWT_SECRET User_findById).
Local Abbreviation guarded := (Routes.guarded jwt_verify JWT_SECRET User_findById).
Local Abbreviation list_route :=
  (Routes.list_route jwt_verify JWT_SECRET User_findById regex regex_error).
Local Abbreviation get_route :=
  (Routes.get_route jwt_verify JWT_SECRET User_findById).
Local Abbreviation post_route :=
  (Routes.post_route jwt_verify JWT_SECRET User_findById
                     new_id now create_validators).
Local Abbreviation put_route :=
  (Routes.put_route jwt_verify JWT_SECRET User_findById update_validators).
Local Abbreviation delete_route :=
  (Routes.delete_route jwt_verify JWT_SECRET User_findById).

Lemma guarded_refused (req : Auth.Request) (s : Store)
      (handler : string -> Response * Store) (f : Spec.Failure) :
  Spec.fails_for jwt_verify JWT_SECRET User_findById req f ->
  guarded req s handler = (refused 401 (Spec.failure_message f), s).
Proof.
  intros H.
  destruct (protect_fails_for jwt_verify JWT_SECRET User_findById req f H)
    as [tr P].
  unfold Routes.guarded. rewrite P. reflexivity.
Qed.

(** X27: a request that fails authentication, for any of the three
    reasons, is answered 401 with the gate's message by every route of
    the router, and the collection is left as it was: no record is read,
    created, changed or removed. *)
Theorem refused_request_reaches_no_handler
        (req : Auth.Request) (s : Store) (f : Spec.Failure)
        (q : ListQuery) (id : string) (cb : CreateBody) (b : UpdateBody) :
  Spec.fails_for jwt_verify JWT_SECRET User_findById req f ->
  list_route req s q = (refused 401 (Spec.failure_message f), s)
  /\ get_route req s id = (refused 401 (Spec.failure_message f), s)
  /\ post_route req s cb = (refused 401 (Spec.failure_message f), s)
  /\ put_route req s id b = (refused 401 (Spec.failure_message f), s)
  /\ delete_route req s id = (refused 401 (Spec.failure_message f), s).
Proof.
  intros H. repeat split; now apply guarded_refused.
Qed.

Lemma post_keeps_records (s : Store) (uid : string) (cb : CreateBody)
      (x : Transaction) :
  In x s -> In x (snd (Routes.post_handler new_id now create_validators s uid cb)).
Proof.
  intros Hin. unfold Routes.post_handler.
  destruct (negb (isEmpty (post_rules cb))); [exact Hin|].
  unfold Transaction_create.
  destruct (create_validators (set_user uid cb)); [exact Hin|].
  destruct (document_of now (new_id s) (set_user uid cb));
    simpl; [apply in_or_app; now left | exact Hin].
Qed.

(** X28: in a collection with unique ids, whatever a request presents,
    if it is not handed on as the owner of a given record, then no route
    changes or removes that record, the by-id read does not return it,
    and the list does not contain it. *)
Theorem routes_isolate_users
        (req : Auth.Request) (s : Store) (t : Transaction)
        (q : ListQuery) (id : string) (cb : CreateBody) (b : UpdateBody) :
  unique_ids s -> In t s ->
  (forall u tr, protect req = (Auth.Continue u, tr) -> principal u <> user t) ->
  In t (snd (post_route req s cb))
  /\ In t (snd (put_route req s id b))
  /\ In t (snd (delete_route req s id))
  /\ fst (get_route req s id) <> Props.found t
  /\ ~ In t (rows (fst (list_route req s q))).
Proof.
  intros Hu Hin Hne.
  unfold Routes.post_route, Routes.put_route, Routes.delete_route,
    Routes.get_route, Routes.list_route, Routes.guarded.
  destruct (protect req) as [out tr] eqn:P. simpl.
  destruct out as [st m | u].
  - simpl. repeat split; auto; try discriminate.
  - specialize (Hne u tr eq_refl).
    assert (Hne' : user t <> principal u) by congruence.
    split; [now apply post_keeps_records|].
    split; [now apply put_keeps_foreign|].
    split; [now apply delete_keeps_foreign|].
    simpl. split.
    + unfold get_handler, Props.found.
      destruct (findOne id (principal u) s) as [x|] eqn:Hf; [|discriminate].
      intros E. injection E as ->.
      destruct (findOne_some s id (principal u) t Hf) as (_ & _ & Hown).
      congruence.
    + intros Hrow. apply (list_rows_owned_aux regex regex_error) in Hrow.
      destruct Hrow as [_ Hown]. congruence.
Qed.

End RouterFacts.

(** ** Witnesses for the further properties *)

Lemma sample_ledger_valid : Forall Props.kind_amount_ok Sample.ledger.
Proof.
  repeat constructor; simpl; auto; unfold Qle; simpl; lia.
Qed.

Lemma owner_reads_own_record_witness :
  Transactions.get_handler Sample.ledger "u1" "t2" = Props.found Sample.food.
Proof.
  exact (owner_reads_own_record Sample.ledger Sample.food
           sample_ledger_unique (or_intror (or_introl eq_refl))).
Defined.

Lemma delete_removes_exactly_one_witness :
  Transactions.delete_handler Sample.ledger "u1" "t2"
  = (Transactions.mkResponse 200 true
       (Transactions.BMessage Transactions.msg_deleted),
     [Sample.salary; Sample.rent]).
Proof.
  exact (proj1 (delete_removes_exactly_one Sample.ledger Sample.food
                  sample_ledger_unique (or_intror (or_introl eq_refl)))).
Defined.

Lemma foreign_records_untouched_witness :
  In Sample.rent
     (snd (Transactions.put_handler Sample.lenient Sample.ledger "u1" "t3"
                                    Fixtures.give_to_u2)) /\
  In Sample.rent (snd (Transactions.delete_handler Sample.ledger "u1" "t3")).
Proof.
  assert (Hne : Transactions.user Sample.rent <> "u1") by discriminate.
  exact (foreign_records_untouched Sample.lenient Sample.ledger "u1" "t3"
           Fixtures.give_to_u2 Sample.rent sample_ledger_unique
           (or_intror (or_intror (or_introl eq_refl))) Hne).
Defined.

Lemma handlers_keep_ids_unique_witness :
  Transactions.unique_ids
    (snd (Transactions.put_handler Sample.lenient Sample.ledger "u1" "t2"
                                   Fixtures.give_to_u2)) /\
  map Transactions._id
      (snd (Transactions.put_handler Sample.lenient Sample.ledger "u1" "t2"
                                     Fixtures.give_to_u2))
  = ["t1"; "t2"; "t3"] /\
  Transactions.unique_ids
    (snd (Transactions.delete_handler Sample.ledger "u1" "t2")).
Proof.
  exact (handlers_keep_ids_unique Sample.lenient Sample.ledger "u1" "t2"
           Fixtures.give_to_u2 sample_ledger_unique).
Defined.

Lemma update_twice_same_collection_witness :
  snd (Transactions.put_handler Sample.lenient
         (snd (Transactions.put_handler Sample.lenient Sample.ledger "u1" "t2"
                                        Fixtures.give_to_u2))
         "u1" "t2" Fixtures.give_to_u2)
  = snd (Transactions.put_handler Sample.lenient Sample.ledger "u1" "t2"
                                  Fixtures.give_to_u2).
Proof.
  exact (update_twice_same_collection Sample.lenient Sample.ledger "u1" "t2"
           Fixtures.give_to_u2 sample_ledger_unique).
Defined.

Lemma empty_update_changes_nothing_witness :
  Transactions.put_handler Sample.lenient Sample.ledger "u1" "t2"
    (Transactions.mkUpdateBody None None None None None None None)
  = (Transactions.mkResponse 200 true
       (Transactions.BData (Some Transactions.msg_updated) (Some Sample.food)),
     Sample.ledger).
Proof.
  exact (empty_update_changes_nothing Sample.lenient Sample.ledger "u1" "t2"
           Sample.food sample_ledger_unique eq_refl eq_refl).
Defined.

Lemma update_can_reassign_owner_witness :
  Transactions.get_handler
    (snd (Transactions.put_handler Sample.lenient Sample.ledger "u1" "t2"
                                   Fixtures.give_to_u2)) "u1" "t2"
  = Transactions.not_found /\
  Transactions.get_handler
    (snd (Transactions.put_handler Sample.lenient Sample.ledger "u1" "t2"
                                   Fixtures.give_to_u2)) "u2" "t2"
  = Props.found (Transactions.apply_update Fixtures.give_to_u2 Sample.food).
Proof.
  assert (Hne : "u1" <> "u2") by discriminate.
  destruct (update_can_reassign_owner Sample.lenient Sample.ledger "u1" "u2"
              "t2" Fixtures.give_to_u2 Sample.food sample_ledger_unique
              eq_refl eq_refl eq_refl eq_refl Hne) as (_ & _ & HA & HB).
  split; [exact HA | exact HB].
Defined.

Lemma create_pins_owner_witness :
  exists t,
    Routes.post_handler Fixtures.next_id 1707000000000 Fixtures.accept_all
                        Sample.ledger "u1" Fixtures.bonus
    = (Transactions.mkResponse 201 true
         (Transactions.BData (Some Routes.msg_created) (Some t)),
       [Sample.salary; Sample.food; Sample.rent; t])
    /\ Transactions.user t = "u1".
Proof.
  destruct (create_pins_owner Fixtures.next_id 1707000000000
              Fixtures.accept_all Sample.ledger "u1" Fixtures.bonus
              eq_refl eq_refl) as (t & E & Hu & _).
  exists t. split; [exact E | exact Hu].
Defined.

Lemma create_then_read_witness :
  exists t,
    snd (Routes.post_handler Fixtures.next_id 1707000000000 Fixtures.accept_all
                             Sample.ledger "u1" Fixtures.bonus)
    = [Sample.salary; Sample.food; Sample.rent; t]
    /\ Transactions.get_handler
         (snd (Routes.post_handler Fixtures.next_id 1707000000000
                 Fixtures.accept_all Sample.ledger "u1" Fixtures.bonus))
         "u1" (Transactions._id t)
       = Props.found t.
Proof.
  destruct (create_then_read Fixtures.next_id 1707000000000
              Fixtures.accept_all Sample.ledger "u1" Fixtures.bonus
              sample_ledger_unique eq_refl eq_refl eq_refl)
    as (t & E & _ & G & _).
  exists t. split; [exact E | exact G].
Defined.

Lemma kind_and_amount_stay_valid_witness :
  Forall Props.kind_amount_ok
         (snd (Routes.post_handler Fixtures.next_id 1707000000000
                 Fixtures.accept_all Sample.ledger "u1" Fixtures.bonus)).
Proof.
  exact (proj1 (kind_and_amount_stay_valid Sample.lenient Fixtures.next_id
                  1707000000000 Fixtures.accept_all Sample.ledger "u1" "t2"
                  Fixtures.give_to_u2 Fixtures.bonus sample_ledger_unique
                  sample_ledger_valid)).
Defined.

Lemma list_count_bounds_witness :
  Transactions.list_handler Sample.literal_regex Fixtures.quantifier_first
                            Sample.ledger "u1" Fixtures.search_star
  = Transactions.mkResponse 500 false
      (Transactions.BFailure Transactions.msg_list_failed
         "Regular expression is invalid: quantifier does not follow a repeatable item").
Proof.
  destruct (list_count_bounds Sample.literal_regex Fixtures.quantifier_first
              Sample.ledger "u1" Fixtures.search_star) as (_ & _ & H).
  exact (H _ eq_refl eq_refl).
Defined.

Lemma page_empty_iff_past_end_witness :
  exists p,
    Transactions.list_handler Sample.literal_regex Fixtures.quantifier_first
      Sample.ledger "u1" (Transactions.at_page Sample.one_per_page 3)
    = Transactions.mkResponse 200 true (Transactions.BPage p)
    /\ (Transactions.data p = [] <-> Transactions.total p <= (3 - 1) * 1)
    /\ Transactions.total p = 2.
Proof.
  destruct (page_empty_iff_past_end Sample.literal_regex
              Fixtures.quantifier_first Sample.ledger "u1"
              (Transactions.at_page Sample.one_per_page 3) eq_refl eq_refl)
    as (p & Hb & Hiff & Ht & _).
  exists p. split; [exact Hb | split; [exact Hiff | exact Ht]].
Defined.

Lemma refused_request_reaches_no_handler_witness :
  Routes.delete_route Sample.verifier "secret" Sample.users
                      (Fixtures.with_cookie "junk") Sample.ledger "t1"
  = (Routes.refused 401 Auth.msg_invalid, Sample.ledger).
Proof.
  assert (H : Spec.fails_for Sample.verifier "secret" Sample.users
                (Fixtures.with_cookie "junk") Spec.InvalidOrExpiredToken).
  { exists "junk". repeat split. discriminate. }
  destruct (refused_request_reaches_no_handler Sample.verifier "secret"
              Sample.users Sample.literal_regex Fixtures.quantifier_first
              Sample.lenient
              Fixtures.next_id 1707000000000 Fixtures.accept_all
              (Fixtures.with_cookie "junk") Sample.ledger
              Spec.InvalidOrExpiredToken Sample.no_filters "t1"
              Fixtures.bonus Fixtures.give_to_u2 H) as (_ & _ & _ & _ & D).
  exact D.
Defined.

Lemma routes_isolate_users_witness :
  In Sample.rent
     (snd (Routes.delete_route Sample.verifier "secret" Sample.users
             (Fixtures.with_cookie "good") Sample.ledger "t3"))
  /\ fst (Routes.get_route Sample.verifier "secret" Sample.users
            (Fixtures.with_cookie "good") Sample.ledger "t3")
     <> Props.found Sample.rent.
Proof.
  assert (H : forall u tr,
             Auth.protect Sample.verifier "secret" Sample.users
                          (Fixtures.with_cookie "good")
             = (Auth.Continue u, tr) ->
             Routes.principal u <> Transactions.user Sample.rent).
  { intros u tr E. vm_compute in E. injection E as <- _. discriminate. }
  destruct (routes_isolate_users Sample.verifier "secret" Sample.users
              Sample.literal_regex Fixtures.quantifier_first
              Sample.lenient Fixtures.next_id
              1707000000000 Fixtures.accept_all
              (Fixtures.with_cookie "good") Sample.ledger Sample.rent
              Sample.no_filters "t3" Fixtures.bonus Fixtures.give_to_u2
              sample_ledger_unique
              (or_intror (or_intror (or_introl eq_refl))) H)
    as (_ & _ & D & G & _).
  split; [exact D | exact G].
Defined.

(** ** The email pattern of the user schema *)

Section EmailFacts.

Import UserSchema.

Local Open Scope list_scope.

(** *** The matcher decides the language *)

Lemma nullable_sound (r : re) : nullable r = true -> lang r [].
Proof.
  induction r; simpl; intros H; try discriminate.
  - constructor.
  - apply Bool.andb_true_iff in H. destruct H as [H1 H2].
    change (@nil ascii) with (@nil ascii ++ []). constructor; auto.
  - apply Bool.orb_true_iff in H. destruct H as [H|H];
      [apply LAltL | apply LAltR]; auto.
  - constructor.
Qed.

Lemma nullable_complete (r : re) : lang r [] -> nullable r = true.
Proof.
  intros H. remember (@nil ascii) as s eqn:Es.
  induction H; simpl; subst; try discriminate; try reflexivity.
  - apply app_eq_nil in Es. destruct Es as [-> ->].
    rewrite IHlang1, IHlang2; reflexivity.
  - rewrite IHlang; reflexivity.
  - rewrite IHlang; [apply Bool.orb_true_r | reflexivity].
Qed.

Lemma deriv_sound (c : ascii) (r : re) (s : list ascii) :
  lang (deriv c r) s -> lang r (c :: s).
Proof.
  revert s. induction r; simpl; intros s H.
  - inversion H.
  - inversion H.
  - destruct (p c) eqn:E; inversion H; subst. now constructor.
  - destruct (nullable r1) eqn:N.
    + inversion H as [| | | ? ? ? H' | ? ? ? H' | |]; subst.
      * inversion H' as [| | ? ? s1 s2 H1 H2 | | | |]; subst.
        change (c :: s1 ++ s2) with ((c :: s1) ++ s2). constructor; auto.
      * change (c :: s) with ([] ++ c :: s).
        constructor; [now apply nullable_sound | auto].
    + inversion H as [| | ? ? s1 s2 H1 H2 | | | |]; subst.
      change (c :: s1 ++ s2) with ((c :: s1) ++ s2). constructor; auto.
  - inversion H; subst; [apply LAltL | apply LAltR]; auto.
  - inversion H as [| | ? ? s1 s2 H1 H2 | | | |]; subst.
    change (c :: s1 ++ s2) with ((c :: s1) ++ s2). constructor; auto.
Qed.

Lemma deriv_complete (c : ascii) (r : re) (s : list ascii) :
  lang r (c :: s) -> lang (deriv c r) s.
Proof.
  intros H. remember (c :: s) as cs eqn:E. revert c s E.
  induction H; intros c0 s0 E; simpl; try discriminate.
  - injection E as -> <-. rewrite H. constructor.
  - destruct s1 as [|a s1]; simpl in E.
    + subst s2. rewrite (nullable_complete r1 H). apply LAltR. now apply IHlang2.
    + injection E as -> <-.
      assert (L : lang (Cat (deriv c0 r1) r2) (s1 ++ s2))
        by (constructor; [now apply IHlang1 | assumption]).
      destruct (nullable r1); [now apply LAltL | exact L].
  - apply LAltL. now apply IHlang.
  - apply LAltR. now apply IHlang.
  - destruct s1 as [|a s1]; simpl in E.
    + subst s2. now apply IHlang2.
    + injection E as -> <-. constructor; [now apply IHlang1 | assumption].
Qed.

Lemma accepts_lang (r : re) (s : list ascii) :
  accepts r s = true <-> lang r s.
Proof.
  revert r. induction s as [|c s IH]; intros r; simpl.
  - split; [apply nullable_sound | apply nullable_complete].
  - rewrite IH. split; [apply deriv_sound | apply deriv_complete].
Qed.

(** *** Reading a match apart *)

Lemma lang_cat_inv (r1 r2 : re) (s : list ascii) :
  lang (Cat r1 r2) s ->
  exists s1 s2, s = s1 ++ s2 /\ lang r1 s1 /\ lang r2 s2.
Proof. intros H. inversion H; subst. eauto. Qed.

Lemma lang_chr_inv (p : ascii -> bool) (s : list ascii) :
  lang (Chr p) s -> exists c, s = [c] /\ p c = true.
Proof. intros H. inversion H; subst. eauto. Qed.

Lemma lang_opt_chr_inv (p : ascii -> bool) (s : list ascii) :
  lang (Opt (Chr p)) s -> s = [] \/ exists c, s = [c] /\ p c = true.
Proof.
  intros H. inversion H as [| | | ? ? ? H' | ? ? ? H' | |]; subst.
  - inversion H'. now left.
  - right. now apply lang_chr_inv.
Qed.

Lemma lang_chars (P : ascii -> Prop) (r : re) (s : list ascii) :
  classes_within P r -> lang r s -> Forall P s.
Proof.
  intros C H. induction H; simpl in C.
  - constructor.
  - constructor; [now apply C | constructor].
  - apply Forall_app. split; [apply IHlang1 | apply IHlang2]; tauto.
  - apply IHlang. tauto.
  - apply IHlang. tauto.
  - constructor.
  - apply Forall_app. split; [now apply IHlang1 | now apply IHlang2].
Qed.

(** A repetition of at least one round: the rounds before the last, and
    the last. *)
Lemma plus_split (r : re) (x1 rest : list ascii) :
  lang r x1 -> lang (Star r) rest ->
  exists u x, x1 ++ rest = u ++ x /\ lang (Star r) u /\ lang r x.
Proof.
  intros Hx1 Hrest. revert x1 Hx1.
  remember (Star r) as sr eqn:E.
  induction Hrest as [| | | | | r0 | r0 s1 s2 H1 _ H2 IH2];
    try discriminate; intros x1 Hx1; injection E as ->.
  - exists [], x1. rewrite app_nil_r. repeat split; auto. constructor.
  - destruct (IH2 eq_refl s1 H1) as (u & x & E' & Hu & Hx).
    exists (x1 ++ u), x. rewrite <- app_assoc, <- E'.
    repeat split; auto. now constructor.
Qed.

Lemma labels_head (s : list ascii) :
  lang labels s -> exists c s', s = c :: s' /\ word c = true.
Proof.
  intros H. unfold labels, Plus in H.
  apply lang_cat_inv in H. destruct H as (s1 & s2 & -> & H1 & _).
  apply lang_cat_inv in H1. destruct H1 as (a & b & -> & Ha & _).
  apply lang_chr_inv in Ha. destruct Ha as (c & -> & Hc).
  exists c, (b ++ s2). auto.
Qed.

Lemma word_is_label_char (c : ascii) : word c = true -> label_char c.
Proof. intros H. now left. Qed.

Lemma dot_or_dash_is_label_char (c : ascii) :
  dot_or_dash c = true -> label_char c.
Proof.
  unfold dot_or_dash. intros H. apply Bool.orb_true_iff in H.
  destruct H as [H|H]; apply Ascii.eqb_eq in H; subst; right; auto.
Qed.

Lemma labels_chars (s : list ascii) : lang labels s -> Forall label_char s.
Proof.
  apply lang_chars. simpl.
  repeat split; auto using word_is_label_char, dot_or_dash_is_label_char.
Qed.

Lemma ending_shape (s : list ascii) :
  lang (Cat (Chr (literal "."%char)) (Rep23 (Chr word))) s ->
  exists tld, s = "."%char :: tld /\ Forall (fun c => word c = true) tld /\
              (List.length tld = 2 \/ List.length tld = 3)%nat.
Proof.
  intros H. apply lang_cat_inv in H. destruct H as (d & w & -> & Hd & Hw).
  apply lang_chr_inv in Hd. destruct Hd as (c & -> & Hc).
  apply Ascii.eqb_eq in Hc. subst c.
  unfold Rep23 in Hw.
  apply lang_cat_inv in Hw. destruct Hw as (a & w1 & -> & Ha & Hw).
  apply lang_cat_inv in Hw. destruct Hw as (b & w2 & -> & Hb & Hw).
  apply lang_chr_inv in Ha, Hb.
  destruct Ha as (ca & -> & Hca), Hb as (cb & -> & Hcb).
  apply lang_opt_chr_inv in Hw.
  destruct Hw as [-> | (cc & -> & Hcc)]; eexists; simpl;
    (split; [reflexivity|]); (split; [repeat constructor; assumption|]); auto.
Qed.

Lemma endings_chars (s : list ascii) :
  lang (Star (Cat (Chr (literal "."%char)) (Rep23 (Chr word)))) s ->
  Forall label_char s.
Proof.
  apply lang_chars. unfold Rep23, Opt. cbn [classes_within].
  repeat split; auto using word_is_label_char.
  intros c H. unfold literal in H. apply Ascii.eqb_eq in H. subst.
  right. now left.
Qed.

(** X29: an address the email pattern accepts reads [local@domain.tld]:
    local part and domain each start with a word character and consist
    of word characters, dots and dashes, and the address ends with a dot
    followed by two or three word characters, no more. *)
Theorem accepted_email_shape (v : string) :
  email_match v = true ->
  exists loc dom tld,
    list_ascii_of_string v = loc ++ "@"%char :: dom ++ "."%char :: tld
    /\ (exists c r, loc = c :: r /\ word c = true)
    /\ (exists c r, dom = c :: r /\ word c = true)
    /\ Forall label_char loc /\ Forall label_char dom
    /\ Forall (fun c => word c = true) tld
    /\ (List.length tld = 2 \/ List.length tld = 3)%nat.
Proof.
  unfold email_match, test. intros H. apply accepts_lang in H.
  unfold email_pattern in H.
  apply lang_cat_inv in H. destruct H as (loc & r1 & E1 & Hloc & H).
  apply lang_cat_inv in H. destruct H as (at_ & r2 & -> & Hat & H).
  apply lang_cat_inv in H. destruct H as (d0 & e & -> & Hd0 & He).
  apply lang_chr_inv in Hat. destruct Hat as (c & -> & Hc).
  apply Ascii.eqb_eq in Hc. subst c.
  assert (Hs : exists u x, e = u ++ x /\
             lang (Star (Cat (Chr (literal "."%char)) (Rep23 (Chr word)))) u /\
             lang (Cat (Chr (literal "."%char)) (Rep23 (Chr word))) x).
  { unfold endings, Plus in He.
    apply lang_cat_inv in He. destruct He as (x1 & rest & -> & Hx1 & Hrest).
    now apply plus_split. }
  destruct Hs as (u & x & -> & Hu & Hx).
  destruct (ending_shape x Hx) as (tld & -> & Hw & Hlen).
  destruct (labels_head d0 Hd0) as (c & r & -> & Hc).
  exists loc, ((c :: r) ++ u), tld.
  split; [rewrite E1; simpl; now rewrite <- !app_assoc|].
  split; [now apply labels_head|].
  split; [exists c, (r ++ u); auto|].
  split; [now apply labels_chars|].
  split; [|auto].
  apply Forall_app. split; [now apply labels_chars | now apply endings_chars].
Qed.

Lemma words_star (w : list ascii) :
  Forall (fun c => word c = true) w -> lang (Star (Chr word)) w.
Proof.
  induction 1 as [|c w Hc _ IH]; [constructor|].
  change (c :: w) with ([c] ++ w). constructor; [now constructor | exact IH].
Qed.

Lemma words_plus (w : list ascii) :
  w <> [] -> Forall (fun c => word c = true) w -> lang (Plus (Chr word)) w.
Proof.
  intros Hne Hw. destruct w as [|c w]; [contradiction|].
  inversion Hw; subst. change (c :: w) with ([c] ++ w). unfold Plus.
  constructor; [now constructor | now apply words_star].
Qed.

Lemma words_labels (w : list ascii) :
  w <> [] -> Forall (fun c => word c = true) w -> lang labels w.
Proof.
  intros Hne Hw. rewrite <- (app_nil_r w). unfold labels.
  constructor; [now apply words_plus | constructor].
Qed.

(** X30: an address made of a non-empty run of word characters, an at
    sign, another such run, a dot and two or three word characters is
    accepted by the email pattern. *)
Theorem plain_address_accepted (loc dom tld : list ascii) :
  loc <> [] -> dom <> [] ->
  Forall (fun c => word c = true) loc ->
  Forall (fun c => word c = true) dom ->
  Forall (fun c => word c = true) tld ->
  (List.length tld = 2 \/ List.length tld = 3)%nat ->
  email_match
    (string_of_list_ascii (loc ++ "@"%char :: dom ++ "."%char :: tld)) = true.
Proof.
  intros Hl Hd Wl Wd Wt Hlen. unfold email_match, test.
  rewrite list_ascii_of_string_of_list_ascii. apply accepts_lang.
  unfold email_pattern.
  constructor; [now apply words_labels|].
  change ("@"%char :: dom ++ "."%char :: tld)
    with (["@"%char] ++ dom ++ "."%char :: tld).
  constructor; [constructor; apply Ascii.eqb_refl|].
  constructor; [now apply words_labels|].
  unfold endings, Plus. rewrite <- (app_nil_r ("."%char :: tld)).
  constructor; [|constructor].
  change ("."%char :: tld) with (["."%char] ++ tld).
  constructor; [constructor; apply Ascii.eqb_refl|].
  unfold Rep23, Opt.
  destruct Hlen as [H2|H3].
  - destruct tld as [|a [|b [|? ?]]]; try discriminate.
    inversion Wt as [|? ? Ha Wt']; subst. inversion Wt' as [|? ? Hb _]; subst.
    change [a; b] with ([a] ++ [b] ++ []).
    repeat constructor; assumption.
  - destruct tld as [|a [|b [|c [|? ?]]]]; try discriminate.
    inversion Wt as [|? ? Ha Wt']; subst. inversion Wt' as [|? ? Hb Wt'']; subst.
    inversion Wt'' as [|? ? Hc _]; subst.
    change [a; b; c] with ([a] ++ [b] ++ [c]).
    constructor; [now constructor|].
    constructor; [now constructor|].
    apply LAltR. now constructor.
Qed.

End EmailFacts.

Lemma accepted_email_shape_witness :
  exists loc dom tld,
    list_ascii_of_string "alice@example.com"
    = (loc ++ "@"%char :: dom ++ "."%char :: tld)%list
    /\ (exists c r, loc = c :: r /\ UserSchema.word c = true)
    /\ (exists c r, dom = c :: r /\ UserSchema.word c = true)
    /\ Forall UserSchema.label_char loc /\ Forall UserSchema.label_char dom
    /\ Forall (fun c => UserSchema.word c = true) tld
    /\ (List.length tld = 2 \/ List.length tld = 3)%nat.
Proof.
  exact (accepted_email_shape "alice@example.com" eq_refl).
Defined.

Lemma plain_address_accepted_witness :
  UserSchema.email_match "bob@site.org" = true.
Proof.
  assert (H1 : list_ascii_of_string "bob" <> []) by discriminate.
  assert (H2 : list_ascii_of_string "site" <> []) by discriminate.
  exact (plain_address_accepted (list_ascii_of_string "bob")
           (list_ascii_of_string "site") (list_ascii_of_string "org")
           H1 H2
           ltac:(repeat constructor) ltac:(repeat constructor)
           ltac:(repeat constructor) (or_intror eq_refl)).
Defined.
